(** * dependabot-action: the main flow ([run]) of the proxy set-up action

    A shallow embedding of [main.ts] in its two variants:

    - [Canonical]: the richer flow (dummy-key PKCS#12 trust store, PEM
      export, Maven [settings.xml], eight exported variables);
    - [Minimal]: the earlier flow (key-less trust store, two exported
      variables).

    The action talks to the outside through awaited calls (the job-control
    API client, the image service, the proxy builder, the container), through
    Node's [fs], [path], [os] and [process.env], through node-forge and
    through [@actions/core].  Everything the outside answers in one execution
    is collected in a [World]; everything the action does to the outside is
    recorded, in order, as a list of [Event]s.  The module-level variable
    [jobId] is threaded as explicit state.  Every awaited call may reject
    and [JSON.parse], [new URL], node-forge and [fs] may throw; the calls
    into [@actions/core] are taken not to throw.

    A [string] is a sequence of bytes.  A text is held as its UTF-8 bytes,
    which is what [core.info] and [writeFileSync] put out for it; a byte
    string of node-forge (one character per byte) is held as its bytes.
    Numbers are integers: the job identifier is the only number of the
    flow. *)

From Stdlib Require Import String Ascii List ZArith Bool Lia.
From Stdlib Require Import DecimalString.
Import ListNotations.
Open Scope list_scope.
Open Scope string_scope.

(** ** JavaScript values used by the flow *)

(** An [Error] object: what [instanceof Error] accepts. *)
Record Error := mkError { name : string; message : string }.

(** What a [throw] carries: an [Error] or any other value. *)
Inductive Thrown :=
| ThrownError (e : Error)
| ThrownOther (v : string).

(** Outcome of a call that may throw (or of an awaited promise that may
    reject). *)
Inductive Result (A : Type) :=
| Ok (a : A)
| Throw (t : Thrown).
Arguments Ok {A} a.
Arguments Throw {A} t.

(** [Error.prototype.toString]. *)
Definition Error_toString (e : Error) : string :=
  if String.eqb (name e) "" then message e
  else if String.eqb (message e) "" then name e
  else name e ++ ": " ++ message e.

(** [Number.MAX_SAFE_INTEGER] and [Number.isSafeInteger] on an integer. *)
Definition MAX_SAFE_INTEGER : Z := 9007199254740991.

Definition isSafeInteger (z : Z) : bool := Z.leb (Z.abs z) MAX_SAFE_INTEGER.

(** The decimal digits of an integer, after a minus sign when it is
    negative. *)
Definition decimal (z : Z) : string := NilZero.string_of_int (Z.to_int z).

(** [Number.prototype.toString] on an integer.  A safe integer prints as its
    decimal digits.  Beyond the safe integers a number stands for several
    integers and prints the shortest digits that identify it, with an
    exponent from 1e21 on: there the string is left to the engine,
    [beyond]. *)
Definition Number_toString (beyond : Z -> string) (z : Z) : string :=
  if isSafeInteger z then decimal z else beyond z.

(** The values that meet in the arrays of [setFailed] and
    [dependabotJobUrl]. *)
Inductive JsValue :=
| JsString (s : string)
| JsNumber (z : Z)
| JsError (e : Error)
| JsNull
| JsUndefined.

(** [Boolean(v)]. *)
Definition truthy (v : JsValue) : bool :=
  match v with
  | JsString s => negb (String.eqb s "")
  | JsNumber z => negb (Z.eqb z 0)
  | JsError _ => true
  | JsNull | JsUndefined => false
  end.

(** The string an array element contributes to [Array.prototype.join];
    [beyond] as in [Number_toString]. *)
Definition join_item (beyond : Z -> string) (v : JsValue) : string :=
  match v with
  | JsString s => s
  | JsNumber z => Number_toString beyond z
  | JsError e => Error_toString e
  | JsNull | JsUndefined => ""
  end.

(** [Array.prototype.join]. *)
Fixpoint join (beyond : Z -> string) (sep : string) (vs : list JsValue)
    : string :=
  match vs with
  | [] => ""
  | [v] => join_item beyond v
  | v :: rest => join_item beyond v ++ sep ++ join beyond sep rest
  end.

(** A string read from [process.env] or a parameter, as a JavaScript value. *)
Definition of_env (o : option string) : JsValue :=
  match o with
  | Some s => JsString s
  | None => JsUndefined
  end.

(** [a || b] on strings that may be undefined: [a] when it is set and not
    empty, [b] otherwise. *)
Definition or_else (a : option string) (b : string) : string :=
  match a with
  | Some s => if String.eqb s "" then b else s
  | None => b
  end.

(** The double quote and the line feed, for the template literals. *)
Definition dq : string := String (ascii_of_nat 34) EmptyString.
Definition lf : string := String (ascii_of_nat 10) EmptyString.

(** What [writeFileSync] writes for a byte string when it is given no
    encoding: the default, [utf8], takes each character for a code point, so
    a byte below 128 is written as it is and any other byte as the two bytes
    of its UTF-8 form.  With [{encoding: 'binary'}] the bytes are written as
    they are. *)
Definition utf8_of_byte (c : ascii) : string :=
  let n := nat_of_ascii c in
  if Nat.ltb n 128 then String c EmptyString
  else String (ascii_of_nat (192 + Nat.div n 64))
         (String (ascii_of_nat (128 + Nat.modulo n 64)) EmptyString).

Fixpoint utf8_encoding (s : string) : string :=
  match s with
  | EmptyString => EmptyString
  | String c rest => utf8_of_byte c ++ utf8_encoding rest
  end.

(** ** Data of the action *)

(** [DependabotErrorType]. *)
Inductive DependabotErrorType :=
| Unknown
| Image
| UpdateRun.

(** The string value of each member of the enum. *)
Definition DependabotErrorType_value (t : DependabotErrorType) : string :=
  match t with
  | Unknown => "actions_workflow_unknown"
  | Image => "actions_workflow_image"
  | UpdateRun => "actions_workflow_updater"
  end.

(** Modelled from the spec: [Credential] is imported from [./api-client],
    which is not among the sources; the spec describes it as a registry entry
    with a type discriminator, a target host and an auth secret. *)
Record Credential := mkCredential {
  cred_type : string;
  cred_host : string;
  cred_secret : string
}.

(** Modelled from the spec: the result of [getJobParameters] ([./inputs], not
    among the sources), with the four fields [main.ts] reads. *)
Record JobParameters := mkJobParameters {
  params_jobId : Z;
  params_jobToken : string;
  params_credentialsToken : string;
  params_dependabotApiUrl : string
}.

(** Modelled from the spec: the job details returned by the job-control
    service; [experiments] is an optional object mapping flags to booleans. *)
Record JobDetails := mkJobDetails {
  experiments : option (list (string * bool))
}.

(** [Object.prototype.hasOwnProperty] on an object given by its own
    properties: whether [key] is one of them. *)
Definition hasOwnProperty (obj : list (string * bool)) (key : string) : bool :=
  existsb (fun kv => String.eqb (fst kv) key) obj.

(** Whether the experiments of the job details are there and have the key
    [proxy-cached] among their own properties. *)
Definition proxy_cached (details : JobDetails) : bool :=
  match experiments details with
  | Some obj => hasOwnProperty obj "proxy-cached"
  | None => false
  end.

(** The [ApiClient] object held in [DependabotJobParameters]: the source only
    tests whether it is defined and calls its methods, whose outcomes are in
    the [World]. *)
Inductive ApiClient := TheApiClient.

(** [DependabotJobParameters]. *)
Record DependabotJobParameters := mkDependabotJobParameters {
  jobToken : string;
  dependabotApiUrl : string;
  cachedMode : bool;
  credentials : list Credential;
  apiClient : option ApiClient
}.

(** The proxy returned by [ProxyBuilder.run]: the container's id, the outcome
    of starting the container, the outcome of polling [url()], the CA
    certificate in PEM form and the name of the isolated network. *)
Record Proxy := mkProxy {
  container_id : string;
  container_start : Result unit;
  url : Result string;
  cert : string;
  networkName : string
}.

(** A parsed [URL]: the two components the flow reads. *)
Record URL := mkURL { hostname : string; port : string }.

(** The options object passed to [pkcs12.toPkcs12Asn1]. *)
Record P12Options := mkP12Options {
  algorithm : string;
  friendlyName : string;
  generateLocalKeyId : bool;
  useMac : bool;
  count : Z;
  saltSize : Z
}.

(** The Actions context: [JSON.stringify(context.payload.inputs)] is all the
    flow itself reads of it. *)
Record Context := mkContext { payload_inputs_json : string }.

(** ** The outside world *)

(** One execution's environment: what each external call answers. *)
Record World := mkWorld {
  (* the engine: the TypeError of a call of what is not a function, and
     Number.prototype.toString beyond the safe integers *)
  not_a_function : Error;
  large_Number_toString : Z -> string;
  (* ./docker-tags *)
  PROXY_IMAGE_NAME : string;
  (* ./inputs *)
  getJobParameters : Context -> option JobParameters;
  (* process.env, as it is when run starts (run reads no variable after
     having exported it) *)
  env : string -> option string;
  (* ApiClient *)
  getJobDetails : Result JobDetails;
  getCredentials : Result (list Credential);
  reportJobError : Result unit;
  markJobAsProcessed : Result unit;
  (* JSON.parse on the credentials text *)
  JSON_parse : string -> Result (list Credential);
  (* ImageService.pull *)
  pull : string -> Result unit;
  (* new ProxyBuilder(docker, image, cachedMode).run(jobId, jobToken, url, credentials) *)
  ProxyBuilder_run :
    string -> bool -> option Z -> string -> string -> list Credential ->
    Result Proxy;
  (* new URL(s) *)
  URL_new : string -> Result URL;
  (* node-forge *)
  generateKeyPair_privateKey : Z -> string;
  certificateFromPem : string -> Result string;
  toPkcs12Asn1 :
    option string -> string -> option string -> option P12Options ->
    Result string;
  toDer_bytes : string -> string;
  (* fs, path, os *)
  writeFileSync : string -> string -> Result unit;
  mkdirSync : string -> Result unit;
  resolve : string -> string;
  path_join : string -> string -> string;
  homedir : string
}.

(** The method call [obj.hasOwnProperty(key)].  The method is looked up on
    the object first: an own property named [hasOwnProperty] hides the method
    of [Object.prototype], and, the properties of [experiments] being
    booleans, what is then called is not a function. *)
Definition call_method_hasOwnProperty (w : World)
    (obj : list (string * bool)) (key : string) : Result bool :=
  if hasOwnProperty obj "hasOwnProperty"
  then Throw (ThrownError (not_a_function w))
  else Ok (hasOwnProperty obj key).

(** [details.experiments?.hasOwnProperty('proxy-cached') === true]. *)
Definition experiment_proxy_cached (w : World) (details : JobDetails)
    : Result bool :=
  match experiments details with
  | Some obj => call_method_hasOwnProperty w obj "proxy-cached"
  | None => Ok false
  end.

(** ** Observable effects *)

Inductive Event :=
| core_info (msg : string)
| core_startGroup (title : string)
| core_endGroup
| core_setSecret (secret : string)
| core_setFailed (msg : string)
| core_saveState (key value : string)
| core_exportVariable (key value : string)
| call_getJobDetails
| call_getCredentials
| call_reportJobError (errorType : string) (actionError : string)
| call_markJobAsProcessed
| call_pull (image : string)
| new_ProxyBuilder (image : string) (cached : bool)
| call_ProxyBuilder_run
    (id : option Z) (token apiUrl : string) (creds : list Credential)
| call_container_start (id : string)
| call_proxy_url
| call_writeFileSync (path bytes : string)
| call_mkdirSync (path : string).

(** ** The effect monad

    A computation reads the module-level [jobId] ([None] while it is
    undefined), and gives the events it emitted, the new [jobId] and either a
    value or what it threw. *)

Record Out (A : Type) := mkOut {
  events : list Event;
  jobId_after : option Z;
  result : Result A
}.
Arguments mkOut {A} _ _ _.
Arguments events {A} _.
Arguments jobId_after {A} _.
Arguments result {A} _.

Definition M (A : Type) : Type := option Z -> Out A.

Definition ret {A} (a : A) : M A := fun j => mkOut [] j (Ok a).

Definition throw {A} (t : Thrown) : M A := fun j => mkOut [] j (Throw t).

Definition bind {A B} (m : M A) (f : A -> M B) : M B :=
  fun j =>
    match m j with
    | mkOut es j' (Ok a) =>
        match f a j' with
        | mkOut es' j'' r => mkOut (es ++ es')%list j'' r
        end
    | mkOut es j' (Throw t) => mkOut es j' (Throw t)
    end.

(** [try { m } catch (error) { h error }]. *)
Definition try_catch {A} (m : M A) (h : Thrown -> M A) : M A :=
  fun j =>
    match m j with
    | mkOut es j' (Ok a) => mkOut es j' (Ok a)
    | mkOut es j' (Throw t) =>
        match h t j' with
        | mkOut es' j'' r => mkOut (es ++ es')%list j'' r
        end
    end.

(** Emit one event. *)
Definition emit (e : Event) : M unit := fun j => mkOut [e] j (Ok tt).

(** Lift an outcome taken from the world. *)
Definition lift {A} (r : Result A) : M A := fun j => mkOut [] j r.

(** An external call: the event of calling, then the world's answer. *)
Definition call {A} (e : Event) (r : Result A) : M A :=
  fun j => mkOut [e] j r.

(** Read and write the module-level [jobId]. *)
Definition get_jobId : M (option Z) := fun j => mkOut [] j (Ok j).
Definition set_jobId (z : Z) : M unit := fun _ => mkOut [] (Some z) (Ok tt).

Declare Scope js_scope.
Delimit Scope js_scope with js.
Notation "x <- m ;; k" := (bind m (fun x => k))
  (at level 61, m at next level, right associativity) : js_scope.
Notation "m ;; k" := (bind m (fun _ => k))
  (at level 61, right associativity) : js_scope.
Open Scope js_scope.

(** [if (jobId)]: defined and not zero. *)
Definition jobId_truthy (j : option Z) : bool :=
  match j with
  | Some z => negb (Z.eqb z 0)
  | None => false
  end.

(** The module-level [jobId] as a JavaScript value. *)
Definition jobId_value (j : option Z) : JsValue :=
  match j with
  | Some z => JsNumber z
  | None => JsUndefined
  end.

(** ** Functions shared by the two variants

    The two variants of [main.ts] have the same helper functions; only the
    bytes [botSay] puts in front of its message differ, so the helpers take
    them as [robot]. *)

Section Helpers.

Variable w : World.
Variable robot : string.

(** [botSay]. *)
Definition botSay (msg : string) : M unit :=
  emit (core_info (robot ++ " ~ " ++ msg ++ " ~")).

(** [dependabotJobUrl]. *)
Definition dependabotJobUrl (id : JsValue) : string :=
  let url_parts :=
    [ of_env (env w "GITHUB_SERVER_URL");
      of_env (env w "GITHUB_REPOSITORY");
      JsString "network/updates";
      id ] in
  join (large_Number_toString w) "/" (filter truthy url_parts).

(** [dependabotJobHelp]: [None] is [null]. *)
Definition dependabotJobHelp : M (option string) :=
  j <- get_jobId ;;
  if jobId_truthy j then
    ret (Some ("For more information see: " ++ dependabotJobUrl (jobId_value j)
               ++ " (write access to the repository is required to view the log)"))
  else ret None.

(** [setFailed]. *)
Definition setFailed (msg : string) (error : option Error) : M unit :=
  j <- get_jobId ;;
  msg' <- (if jobId_truthy j then
             help <- dependabotJobHelp ;;
             ret (join (large_Number_toString w) (lf ++ lf)
                    (filter truthy
                       [ JsString msg;
                         match error with Some e => JsError e | None => JsNull end;
                         match help with Some s => JsString s | None => JsNull end ]))
           else ret msg) ;;
  emit (core_setFailed msg').

(** [failJob]; the default [errorType] is [Unknown]. *)
Definition failJob (client : option ApiClient) (msg : string) (error : Error)
    (errorType : DependabotErrorType) : M unit :=
  (match client with
   | Some _ =>
       call (call_reportJobError (DependabotErrorType_value errorType)
               (message error))
            (reportJobError w) ;;
       call call_markJobAsProcessed (markJobAsProcessed w)
   | None => ret tt
   end) ;;
  setFailed msg (Some error) ;;
  botSay "finished: error reported to Dependabot".

(** [getCredentialsFromEnv]. *)
Definition getCredentialsFromEnv : M DependabotJobParameters :=
  let credentialsText := or_else (env w "DEPENDABOT_CREDENTIALS") "[]" in
  creds <- lift (JSON_parse w credentialsText) ;;
  ret {| jobToken := "";
         dependabotApiUrl := "";
         cachedMode := true;
         credentials := creds;
         apiClient := None |}.

(** [getDependabotJobParameters]: [None] is [null]. *)
Definition getDependabotJobParameters (context : Context)
    : M (option DependabotJobParameters) :=
  match getJobParameters w context with
  | None =>
      botSay "finished: nothing to do" ;;
      ret None
  | Some params =>
      let jobToken :=
        or_else (env w "GITHUB_DEPENDABOT_JOB_TOKEN") (params_jobToken params) in
      let credentialsToken :=
        or_else (env w "GITHUB_DEPENDABOT_CRED_TOKEN")
                (params_credentialsToken params) in
      if String.eqb jobToken "" then
        let errorMessage := "Github Dependabot job token is not set" in
        botSay ("finished: " ++ errorMessage) ;;
        emit (core_setFailed errorMessage) ;;
        ret None
      else if String.eqb credentialsToken "" then
        let errorMessage := "Github Dependabot credentials token is not set" in
        botSay ("finished: " ++ errorMessage) ;;
        emit (core_setFailed errorMessage) ;;
        ret None
      else
        set_jobId (params_jobId params) ;;
        emit (core_setSecret jobToken) ;;
        emit (core_setSecret credentialsToken) ;;
        let client := TheApiClient in
        try_catch
          (emit (core_info "Fetching job details") ;;
           details <- call call_getJobDetails (getJobDetails w) ;;
           creds <- call call_getCredentials (getCredentials w) ;;
           cached <- lift (experiment_proxy_cached w details) ;;
           ret (Some {| jobToken := jobToken;
                        dependabotApiUrl := params_dependabotApiUrl params;
                        cachedMode := cached;
                        credentials := creds;
                        apiClient := Some client |}))
          (fun error =>
             match error with
             | ThrownError e =>
                 setFailed "Dependabot encountered an unexpected problem" (Some e) ;;
                 botSay ("finished: unexpected error: " ++ Error_toString e) ;;
                 ret None
             | ThrownOther _ => throw error
             end)
  end.

(** [run] is one long function; it is embedded as the sequence of its
    stages.  The first three are the same, word for word, in the two
    variants.

    [run], first stage: the greeting, then the job parameters, fetched from
    the job-control service or, when [getDependabotJobParameters] gave
    [null], taken from the environment. *)
Definition run_parameters (context : Context) : M DependabotJobParameters :=
  botSay (payload_inputs_json context) ;;
  botSay "starting update" ;;
  emit (core_startGroup "Pstart") ;;
  emit core_endGroup ;;
  jobParameters <- getDependabotJobParameters context ;;
  match jobParameters with
  | Some p => ret p
  | None => getCredentialsFromEnv
  end.

(** [run], second stage: the image pull inside its [try]/[catch].  The value
    is [false] when the [catch] block ends in [return], so that [run] stops,
    and [true] when [run] goes on. *)
Definition run_pull (p : DependabotJobParameters) : M bool :=
  emit (core_startGroup "Pulling updater images") ;;
  emit core_endGroup ;;
  try_catch
    (call (call_pull (PROXY_IMAGE_NAME w)) (pull w (PROXY_IMAGE_NAME w)) ;;
     ret true)
    (fun error =>
       match error with
       | ThrownError e =>
           failJob (apiClient p)
             ("Error fetching updater images" ++ message e) e Image ;;
           ret false
       | ThrownOther _ => ret true
       end).

(** [run], third stage: build the proxy, start its container and wait for
    its URL. *)
Definition run_proxy (p : DependabotJobParameters) : M (Proxy * URL) :=
  emit core_endGroup ;;
  botSay "initialize proxy builder" ;;
  emit (new_ProxyBuilder (PROXY_IMAGE_NAME w) (cachedMode p)) ;;
  botSay "building proxy" ;;
  j <- get_jobId ;;
  proxy <- call (call_ProxyBuilder_run j (jobToken p) (dependabotApiUrl p)
                   (credentials p))
                (ProxyBuilder_run w (PROXY_IMAGE_NAME w) (cachedMode p) j
                   (jobToken p) (dependabotApiUrl p) (credentials p)) ;;
  botSay "start proxy" ;;
  call (call_container_start (container_id proxy)) (container_start proxy) ;;
  emit (core_saveState "PROXY_CONTAINER_ID" (container_id proxy)) ;;
  s <- call call_proxy_url (url proxy) ;;
  proxyUrl <- lift (URL_new w s) ;;
  ret (proxy, proxyUrl).

End Helpers.

(** ** The canonical (richer) variant *)

Module Canonical.

(** The bytes in front of every [botSay] message: the robot emoji. *)
Definition robot : string := "🤖".

Section Run.

Variable w : World.

(** The fixed password of the trust store. *)
Definition password : string := "changeit".

(** The options [run] passes to [pkcs12.toPkcs12Asn1]. *)
Definition p12_options : P12Options :=
  {| algorithm := "3des";
     friendlyName := "mykey";
     generateLocalKeyId := false;
     useMac := true;
     count := 10000;
     saltSize := 20 |}.

Definition trustStore : string := resolve w "keystore.p12".
Definition pemFile : string := resolve w "cert.pem".

Definition JAVA_SSL_OPTS : string :=
  "-Djavax.net.ssl.trustStore=" ++ trustStore
  ++ " -Djavax.net.ssl.trustStoreType=PKCS12 -Djavax.net.ssl.trustStorePassword="
  ++ password.

Definition JAVA_PROXY_OPTS (proxyUrl : URL) : string :=
  "-Dhttp.proxyHost=" ++ hostname proxyUrl
  ++ " -Dhttp.proxyPort=" ++ port proxyUrl
  ++ " -Dhttps.proxyHost=" ++ hostname proxyUrl
  ++ " -Dhttps.proxyPort=" ++ port proxyUrl.

(** The Maven [settings.xml] template; a backslash at the end of a line of
    the template literal drops the line break and keeps the indentation of
    the next line. *)
Definition settings (proxyUrl : URL) : string :=
  "<settings xmlns=" ++ dq ++ "http://maven.apache.org/SETTINGS/1.2.0" ++ dq
  ++ " xmlns:xsi=" ++ dq ++ "http://www.w3.org/2001/XMLSchema-instance" ++ dq
  ++ " "
  ++ "    xsi:schemaLocation=" ++ dq
  ++ "http://maven.apache.org/SETTINGS/1.2.0 http://maven.apache.org/xsd/settings-1.2.0.xsd"
  ++ dq ++ ">"
  ++ "    <proxies>"
  ++ "      <proxy><protocol>http</protocol><host>" ++ hostname proxyUrl
  ++ "</host><port>" ++ port proxyUrl ++ "</port></proxy>"
  ++ "      <proxy><protocol>https</protocol><host>" ++ hostname proxyUrl
  ++ "</host><port>" ++ port proxyUrl ++ "</port></proxy>"
  ++ "    </proxies>"
  ++ "  </settings>".

Definition m2_dir : string := path_join w (homedir w) ".m2".

(** The values of the three Java option variables. *)
Definition MAVEN_OPTS_value (proxyUrl : URL) : string :=
  JAVA_SSL_OPTS ++ " -DproxySet=true " ++ JAVA_PROXY_OPTS proxyUrl ++ " "
  ++ or_else (env w "MAVEN_OPTS") "".

Definition GRADLE_OPTS_value (proxyUrl : URL) : string :=
  JAVA_SSL_OPTS ++ " " ++ JAVA_PROXY_OPTS proxyUrl ++ " "
  ++ or_else (env w "GRADLE_OPTS") "".

Definition SEMMLE_value (proxyUrl : URL) : string :=
  JAVA_SSL_OPTS ++ " " ++ JAVA_PROXY_OPTS proxyUrl ++ " "
  ++ or_else (env w "SEMMLE_JAVA_EXTRACTOR_JVM_ARGS") "".

(** [run], last stage: the trust store, the PEM file, Maven's settings and
    the exported variables.  The byte string of the trust store is written
    with [{encoding: 'binary'}]; the two texts with the default encoding. *)
Definition run_outputs (proxy : Proxy) (proxyUrl : URL) : M unit :=
  let key := generateKeyPair_privateKey w 2048 in
  certificate <- lift (certificateFromPem w (cert proxy)) ;;
  p12 <- lift (toPkcs12Asn1 w (Some key) certificate (Some password)
                 (Some p12_options)) ;;
  call (call_writeFileSync trustStore (toDer_bytes w p12))
       (writeFileSync w trustStore (toDer_bytes w p12)) ;;
  call (call_writeFileSync pemFile (cert proxy))
       (writeFileSync w pemFile (cert proxy)) ;;
  call (call_mkdirSync m2_dir) (mkdirSync w m2_dir) ;;
  call (call_writeFileSync (path_join w m2_dir "settings.xml")
          (settings proxyUrl))
       (writeFileSync w (path_join w m2_dir "settings.xml")
          (settings proxyUrl)) ;;
  emit (core_exportVariable "MAVEN_OPTS" (MAVEN_OPTS_value proxyUrl)) ;;
  emit (core_exportVariable "GRADLE_OPTS" (GRADLE_OPTS_value proxyUrl)) ;;
  emit (core_exportVariable "SEMMLE_JAVA_EXTRACTOR_JVM_ARGS"
          (SEMMLE_value proxyUrl)) ;;
  emit (core_exportVariable "CODEQL_JAVA_EXTRACTOR_TRUST_STORE_PATH"
          trustStore) ;;
  emit (core_exportVariable "PROXY_NETWORK_NAME" (networkName proxy)) ;;
  emit (core_exportVariable "PROXY_HOST" (hostname proxyUrl)) ;;
  emit (core_exportVariable "PROXY_PORT" (port proxyUrl)) ;;
  emit (core_exportVariable "PROXY_CA_CERT" pemFile).

(** [run]. *)
Definition run (context : Context) : M unit :=
  p <- run_parameters w robot context ;;
  pulled <- run_pull w robot p ;;
  if negb pulled then ret tt
  else
    reached <- run_proxy w robot p ;;
    run_outputs (fst reached) (snd reached).

End Run.

End Canonical.

(** ** The minimal variant *)

Module Minimal.

(** The bytes in front of every [botSay] message, as this file has them. *)
Definition robot : string := "ðŸ¤–".

Section Run.

Variable w : World.

Definition trustStore : string := "keystore.p12".

Definition JAVA_SSL_OPTS : string :=
  "-Djavax.net.ssl.trustStore=" ++ trustStore
  ++ " -Djavax.net.ssl.trustStoreType=PKCS12".

Definition JAVA_PROXY_OPTS (proxyUrl : URL) : string :=
  "-Dhttp.proxyHost=" ++ hostname proxyUrl
  ++ " -Dhttp.proxyPort=" ++ port proxyUrl
  ++ " -Dhttps.proxyHost=" ++ hostname proxyUrl
  ++ " -Dhttps.proxyPort=" ++ port proxyUrl.

Definition MAVEN_OPTS_value (proxyUrl : URL) : string :=
  JAVA_SSL_OPTS ++ " -DproxySet=true " ++ JAVA_PROXY_OPTS proxyUrl ++ " "
  ++ or_else (env w "MAVEN_OPTS") "".

Definition GRADLE_OPTS_value (proxyUrl : URL) : string :=
  JAVA_SSL_OPTS ++ " " ++ JAVA_PROXY_OPTS proxyUrl ++ " "
  ++ or_else (env w "GRADLE_OPTS") "".

(** [run], last stage: the trust store and the two exported variables.
    The byte string of the trust store is written without an encoding. *)
Definition run_outputs (proxy : Proxy) (proxyUrl : URL) : M unit :=
  certificate <- lift (certificateFromPem w (cert proxy)) ;;
  p12 <- lift (toPkcs12Asn1 w None certificate None None) ;;
  call (call_writeFileSync trustStore (utf8_encoding (toDer_bytes w p12)))
       (writeFileSync w trustStore (utf8_encoding (toDer_bytes w p12))) ;;
  emit (core_exportVariable "MAVEN_OPTS" (MAVEN_OPTS_value proxyUrl)) ;;
  emit (core_exportVariable "GRADLE_OPTS" (GRADLE_OPTS_value proxyUrl)).

(** [run]. *)
Definition run (context : Context) : M unit :=
  p <- run_parameters w robot context ;;
  pulled <- run_pull w robot p ;;
  if negb pulled then ret tt
  else
    reached <- run_proxy w robot p ;;
    run_outputs (fst reached) (snd reached).

End Run.

End Minimal.
(** ** Running the flow

    A fresh process: the module-level [jobId] is still undefined. *)

Definition start {A} (m : M A) : Out A := m None.

(** The events of one execution of the canonical [run], and how it ended. *)
Definition trace (w : World) (context : Context) : list Event :=
  events (start (Canonical.run w context)).

Definition outcome (w : World) (context : Context) : Result unit :=
  result (start (Canonical.run w context)).

(** The events of one execution of the minimal [run]. *)
Definition minimal_trace (w : World) (context : Context) : list Event :=
  events (start (Minimal.run w context)).

(** What [getDependabotJobParameters] gives in a fresh process:
    [Ok (Some p)] when the job parameters were fetched, [Ok None] for [null]. *)
Definition jobParameters (w : World) (context : Context)
    : Result (option DependabotJobParameters) :=
  result (start (getDependabotJobParameters w Canonical.robot context)).

(** The text [getCredentialsFromEnv] parses. *)
Definition credentialsText (w : World) : string :=
  or_else (env w "DEPENDABOT_CREDENTIALS") "[]".

(** The value a variable had before the run, the empty string when unset. *)
Definition pre_existing (w : World) (key : string) : string :=
  match env w key with
  | Some v => v
  | None => ""
  end.

(** ** Views of a trace *)

(** The files written, in order: path and bytes. *)
Fixpoint files_written (t : list Event) : list (string * string) :=
  match t with
  | [] => []
  | call_writeFileSync path data :: t' => (path, data) :: files_written t'
  | _ :: t' => files_written t'
  end.

(** The variables exported, in order: name and value. *)
Fixpoint exported (t : list Event) : list (string * string) :=
  match t with
  | [] => []
  | core_exportVariable key value :: t' => (key, value) :: exported t'
  | _ :: t' => exported t'
  end.

(** The names of the variables exported in [t]. *)
Definition exported_names (t : list Event) : list string :=
  map fst (exported t).

(** [reportJobError] was not called in [t]. *)
Definition unreported (t : list Event) : Prop :=
  forall errorType detail, ~ In (call_reportJobError errorType detail) t.

(** The run was not marked as failed in [t]. *)
Definition not_failed (t : list Event) : Prop :=
  forall msg, ~ In (core_setFailed msg) t.

(** Every [markJobAsProcessed] call of [t] comes after a [reportJobError]
    call. *)
Definition report_before_mark (t : list Event) : Prop :=
  forall pre post,
    t = (pre ++ call_markJobAsProcessed :: post)%list ->
    exists errorType detail, In (call_reportJobError errorType detail) pre.

(** Events of the proxy's construction and start. *)
Definition is_proxy_event (e : Event) : bool :=
  match e with
  | new_ProxyBuilder _ _ | call_ProxyBuilder_run _ _ _ _
  | call_container_start _ | call_proxy_url => true
  | _ => false
  end.

(** No event of [t] constructs or starts a proxy. *)
Definition no_proxy (t : list Event) : Prop :=
  forall e, In e t -> is_proxy_event e = false.

(** A successful execution: [run] returns and never marks the run failed. *)
Definition successful (w : World) (context : Context) : Prop :=
  outcome w context = Ok tt /\ not_failed (trace w context).

(** A fetch from the job-control service was made and threw the [Error]
    [e]. *)
Definition fetch_threw (w : World) (context : Context) (e : Error) : Prop :=
  (In call_getJobDetails (trace w context)
   /\ getJobDetails w = Throw (ThrownError e))
  \/ (In call_getCredentials (trace w context)
      /\ getCredentials w = Throw (ThrownError e)).

(** ** The events of each stage *)

(** The parameter stage stays inside the runner (logging, groups, secrets,
    the failed mark), apart from the two fetches from the job-control
    service. *)
Definition is_preliminary (e : Event) : bool :=
  match e with
  | core_info _ | core_startGroup _ | core_endGroup | core_setSecret _
  | core_setFailed _ | call_getJobDetails | call_getCredentials => true
  | _ => false
  end.

(** Events of the image-pull stage. *)
Definition is_pull_event (e : Event) : bool :=
  match e with
  | core_info _ | core_startGroup _ | core_endGroup | core_setFailed _
  | call_pull _ | call_reportJobError _ _ | call_markJobAsProcessed => true
  | _ => false
  end.

(** Events of the proxy stage. *)
Definition is_proxy_stage_event (e : Event) : bool :=
  match e with
  | core_info _ | core_endGroup | core_saveState _ _ => true
  | _ => is_proxy_event e
  end.

(** Events of the proxy stage once the builder was called. *)
Definition is_proxy_start_event (e : Event) : bool :=
  match e with
  | core_info _ | core_saveState _ _ | call_container_start _
  | call_proxy_url => true
  | _ => false
  end.

(** Events of the output stage. *)
Definition is_output_event (e : Event) : bool :=
  match e with
  | call_writeFileSync _ _ | call_mkdirSync _ | core_exportVariable _ _ => true
  | _ => false
  end.

(** ** The stages of one execution

    [Stages w robot outputs context o]: [o] is what [run] gives in a fresh
    process, told stage by stage; [outputs] is the variant's last stage. *)

Inductive Stages (w : World) (robot : string)
    (outputs : Proxy -> URL -> M unit) (context : Context)
    : Out unit -> Prop :=
| parameters_threw es1 j1 t :
    run_parameters w robot context None = mkOut es1 j1 (Throw t) ->
    Stages w robot outputs context (mkOut es1 j1 (Throw t))
| pull_threw es1 j1 p es2 j2 t :
    run_parameters w robot context None = mkOut es1 j1 (Ok p) ->
    run_pull w robot p j1 = mkOut es2 j2 (Throw t) ->
    Stages w robot outputs context (mkOut (es1 ++ es2)%list j2 (Throw t))
| pull_failed es1 j1 p es2 j2 :
    run_parameters w robot context None = mkOut es1 j1 (Ok p) ->
    run_pull w robot p j1 = mkOut es2 j2 (Ok false) ->
    Stages w robot outputs context (mkOut (es1 ++ es2)%list j2 (Ok tt))
| proxy_threw es1 j1 p es2 j2 es3 j3 t :
    run_parameters w robot context None = mkOut es1 j1 (Ok p) ->
    run_pull w robot p j1 = mkOut es2 j2 (Ok true) ->
    run_proxy w robot p j2 = mkOut es3 j3 (Throw t) ->
    Stages w robot outputs context
      (mkOut (es1 ++ es2 ++ es3)%list j3 (Throw t))
| outputs_reached es1 j1 p es2 j2 es3 j3 proxy proxyUrl es4 j4 r :
    run_parameters w robot context None = mkOut es1 j1 (Ok p) ->
    run_pull w robot p j1 = mkOut es2 j2 (Ok true) ->
    run_proxy w robot p j2 = mkOut es3 j3 (Ok (proxy, proxyUrl)) ->
    outputs proxy proxyUrl j3 = mkOut es4 j4 r ->
    Stages w robot outputs context
      (mkOut (es1 ++ es2 ++ es3 ++ es4)%list j4 r).

(** ** Two executions that differ only in their credentials *)

(** Two outcomes of the same kind: both a value, or the same thrown value. *)
Definition same_kind {A} (r1 r2 : Result A) : Prop :=
  match r1, r2 with
  | Ok _, Ok _ => True
  | Throw t1, Throw t2 => t1 = t2
  | _, _ => False
  end.

(** [w1] and [w2] answer alike, except for the credential set they hand out:
    the one the service returns and the one in [DEPENDABOT_CREDENTIALS].  The
    proxy builder, which receives the credentials, returns the same proxy
    (certificate, endpoint, network) for both; node-forge generates the same
    dummy key. *)
Record same_but_credentials (w1 w2 : World) : Prop := {
  sbc_image : PROXY_IMAGE_NAME w1 = PROXY_IMAGE_NAME w2;
  sbc_parameters : forall c, getJobParameters w1 c = getJobParameters w2 c;
  sbc_env :
    forall k, k <> "DEPENDABOT_CREDENTIALS" -> env w1 k = env w2 k;
  sbc_details : getJobDetails w1 = getJobDetails w2;
  sbc_credentials : same_kind (getCredentials w1) (getCredentials w2);
  sbc_report : reportJobError w1 = reportJobError w2;
  sbc_mark : markJobAsProcessed w1 = markJobAsProcessed w2;
  sbc_parse :
    same_kind (JSON_parse w1 (credentialsText w1))
              (JSON_parse w2 (credentialsText w2));
  sbc_pull : forall i, pull w1 i = pull w2 i;
  sbc_proxy :
    forall i cm j t u c1 c2,
      ProxyBuilder_run w1 i cm j t u c1 = ProxyBuilder_run w2 i cm j t u c2;
  sbc_url : forall s, URL_new w1 s = URL_new w2 s;
  sbc_key :
    forall n, generateKeyPair_privateKey w1 n = generateKeyPair_privateKey w2 n;
  sbc_pem : forall s, certificateFromPem w1 s = certificateFromPem w2 s;
  sbc_p12 : forall k c p o, toPkcs12Asn1 w1 k c p o = toPkcs12Asn1 w2 k c p o;
  sbc_der : forall a, toDer_bytes w1 a = toDer_bytes w2 a;
  sbc_write : forall f d, writeFileSync w1 f d = writeFileSync w2 f d;
  sbc_mkdir : forall d, mkdirSync w1 d = mkdirSync w2 d;
  sbc_resolve : forall f, resolve w1 f = resolve w2 f;
  sbc_join : forall a b, path_join w1 a b = path_join w2 a b;
  sbc_homedir : homedir w1 = homedir w2
}.

(** The job parameters [run] works with in two such executions agree on
    everything but the credentials. *)
Definition same_but_credentials_parameters
    (p1 p2 : DependabotJobParameters) : Prop :=
  jobToken p1 = jobToken p2
  /\ dependabotApiUrl p1 = dependabotApiUrl p2
  /\ cachedMode p1 = cachedMode p2
  /\ apiClient p1 = apiClient p2.

(** ** What a successful execution publishes

    The trust store of the proxy's certificate, protected by [changeit], at
    [keystore.p12]; the certificate in PEM form at [cert.pem]; Maven's
    settings; and the exported variables with the proxy's host and port, the
    two paths and the name of the proxy's network.  The proxy is the one the
    builder returned; host and port are those of its URL. *)
Definition outputs_published (w : World) (context : Context) : Prop :=
  exists p jid proxy proxyUrl certificate p12,
    ProxyBuilder_run w (PROXY_IMAGE_NAME w) (cachedMode p) jid (jobToken p)
      (dependabotApiUrl p) (credentials p) = Ok proxy
    /\ (exists s, url proxy = Ok s /\ URL_new w s = Ok proxyUrl)
    /\ certificateFromPem w (cert proxy) = Ok certificate
    /\ toPkcs12Asn1 w (Some (generateKeyPair_privateKey w 2048)) certificate
         (Some "changeit") (Some Canonical.p12_options) = Ok p12
    /\ files_written (trace w context) =
         [(resolve w "keystore.p12", toDer_bytes w p12);
          (resolve w "cert.pem", cert proxy);
          (path_join w (path_join w (homedir w) ".m2") "settings.xml",
           Canonical.settings proxyUrl)]
    /\ In ("PROXY_HOST", hostname proxyUrl) (exported (trace w context))
    /\ In ("PROXY_PORT", port proxyUrl) (exported (trace w context))
    /\ In ("CODEQL_JAVA_EXTRACTOR_TRUST_STORE_PATH", resolve w "keystore.p12")
          (exported (trace w context))
    /\ In ("PROXY_CA_CERT", resolve w "cert.pem") (exported (trace w context))
    /\ In ("PROXY_NETWORK_NAME", networkName proxy)
          (exported (trace w context)).

(** ** Statements that the flow does not meet *)

(** "A failed fetch is not reported, marks the run failed and ends the
    pipeline." *)
Definition fetch_failure_ends_run (w : World) (context : Context) : Prop :=
  forall e,
    fetch_threw w context e ->
    unreported (trace w context)
    /\ (exists msg, In (core_setFailed msg) (trace w context))
    /\ ~ In (call_pull (PROXY_IMAGE_NAME w)) (trace w context)
    /\ no_proxy (trace w context).

(** "With the job parameters fetched, an [Error] from the image pull is
    reported as an image error, then the job is marked processed and the run
    failed, and [run] returns without a proxy." *)
Definition image_failure_always_finalised (w : World) (context : Context)
    : Prop :=
  forall p e,
    jobParameters w context = Ok (Some p) ->
    pull w (PROXY_IMAGE_NAME w) = Throw (ThrownError e) ->
    (exists pre post msg,
        trace w context =
          (pre ++ call_reportJobError "actions_workflow_image" (message e)
               :: call_markJobAsProcessed :: core_setFailed msg :: post)%list)
    /\ outcome w context = Ok tt
    /\ no_proxy (trace w context).

(** "The proxy builder gets cached mode only when the fetched job details
    carry the experiment." *)
Definition cached_mode_only_by_experiment (w : World) (context : Context)
    : Prop :=
  forall image,
    In (new_ProxyBuilder image true) (trace w context) ->
    In call_getJobDetails (trace w context)
    /\ exists d, getJobDetails w = Ok d /\ proxy_cached d = true.

(** "Each file the minimal variant writes and each variable it exports, with
    its value, is also produced by the canonical variant." *)
Definition minimal_effects_included (w : World) (context : Context) : Prop :=
  incl (files_written (minimal_trace w context))
       (files_written (trace w context))
  /\ incl (exported (minimal_trace w context)) (exported (trace w context)).

(** ** Sample executions *)

Definition sample_context : Context := mkContext "{}".

Definition sample_params : JobParameters :=
  mkJobParameters 17 "job-token" "cred-token" "https://api.example".

Definition sample_proxy : Proxy :=
  mkProxy "c0ffee" (Ok tt) (Ok "http://10.0.0.2:1080") "PEM" "net-17".

Definition npm_credential : Credential :=
  mkCredential "npm_registry" "registry.npmjs.org" "s3cret".

Definition maven_credential : Credential :=
  mkCredential "maven_repository" "repo.example" "hunter2".

Definition no_env : string -> option string := fun _ => None.

(** A world whose file system, path functions and node-forge always succeed;
    the rest is given. *)
Definition sample_world (parameters : option JobParameters)
    (details : Result JobDetails) (fetched : Result (list Credential))
    (report mark pulled : Result unit) (built : Result Proxy)
    (environment : string -> option string) : World :=
  {| not_a_function :=
       mkError "TypeError" "details.experiments?.hasOwnProperty is not a function";
     large_Number_toString := fun _ => "1e+21";
     PROXY_IMAGE_NAME := "proxy:latest";
     getJobParameters := fun _ => parameters;
     env := environment;
     getJobDetails := details;
     getCredentials := fetched;
     reportJobError := report;
     markJobAsProcessed := mark;
     JSON_parse := fun _ => Ok [];
     pull := fun _ => pulled;
     ProxyBuilder_run := fun _ _ _ _ _ _ => built;
     URL_new := fun _ => Ok (mkURL "10.0.0.2" "1080");
     generateKeyPair_privateKey := fun _ => "KEY";
     certificateFromPem := fun pem => Ok pem;
     toPkcs12Asn1 := fun key certificate pass options =>
       Ok (match key, pass with
           | Some k, Some p => "P12:" ++ k ++ ":" ++ certificate ++ ":" ++ p
           | _, _ => "P12:" ++ certificate
           end);
     toDer_bytes := fun asn1 => asn1;
     writeFileSync := fun _ _ => Ok tt;
     mkdirSync := fun _ => Ok tt;
     resolve := fun p => "/work/" ++ p;
     path_join := fun a b => a ++ "/" ++ b;
     homedir := "/home/runner" |}.

Definition boom : Thrown := ThrownError (mkError "Error" "boom").

(** Everything succeeds. *)
Definition happy_world : World :=
  sample_world (Some sample_params) (Ok (mkJobDetails None))
    (Ok [npm_credential]) (Ok tt) (Ok tt) (Ok tt) (Ok sample_proxy) no_env.

(** The proxy builder throws after the credentials were fetched and the image
    was pulled. *)
Definition proxy_failure_world : World :=
  sample_world (Some sample_params) (Ok (mkJobDetails None))
    (Ok [npm_credential]) (Ok tt) (Ok tt) (Ok tt) (Throw boom) no_env.

Definition unauthorized : Error := mkError "Error" "Unexpected status code: 401".

(** The job-control service answers 401 to the request for the job details. *)
Definition unauthorized_world : World :=
  sample_world (Some sample_params) (Throw (ThrownError unauthorized))
    (Ok [npm_credential]) (Ok tt) (Ok tt) (Ok tt) (Ok sample_proxy) no_env.

Definition registry_unreachable : Error := mkError "Error" "registry unreachable".

(** The image pull fails; the job-control service takes the report. *)
Definition image_failure_world : World :=
  sample_world (Some sample_params) (Ok (mkJobDetails None))
    (Ok [npm_credential]) (Ok tt) (Ok tt)
    (Throw (ThrownError registry_unreachable)) (Ok sample_proxy) no_env.

(** The image pull fails, and so does the report of it. *)
Definition report_failure_world : World :=
  sample_world (Some sample_params) (Ok (mkJobDetails None))
    (Ok [npm_credential]) (Throw boom) (Ok tt)
    (Throw (ThrownError registry_unreachable)) (Ok sample_proxy) no_env.

(** Not a Dependabot event: [getJobParameters] gives [null]. *)
Definition no_parameters_world : World :=
  sample_world None (Ok (mkJobDetails None)) (Ok []) (Ok tt) (Ok tt) (Ok tt)
    (Ok sample_proxy) no_env.

(** The job opted into cached mode. *)
Definition opted_in_world : World :=
  sample_world (Some sample_params)
    (Ok (mkJobDetails (Some [("proxy-cached", true)])))
    (Ok [npm_credential]) (Ok tt) (Ok tt) (Ok tt) (Ok sample_proxy) no_env.

(** The image pull throws a string. *)
Definition odd_throw_world : World :=
  sample_world (Some sample_params) (Ok (mkJobDetails None))
    (Ok [npm_credential]) (Ok tt) (Ok tt) (Throw (ThrownOther "timeout"))
    (Ok sample_proxy) no_env.

(** As [happy_world], with another credential set. *)
Definition other_credentials_world : World :=
  sample_world (Some sample_params) (Ok (mkJobDetails None))
    (Ok [maven_credential; npm_credential]) (Ok tt) (Ok tt) (Ok tt)
    (Ok sample_proxy) no_env.

(** As [happy_world], with Java options already in the environment. *)
Definition java_env (key : string) : option string :=
  if String.eqb key "MAVEN_OPTS" then Some "-Xmx1g"
  else if String.eqb key "GRADLE_OPTS" then Some ""
  else None.

Definition java_world : World :=
  sample_world (Some sample_params) (Ok (mkJobDetails None))
    (Ok [npm_credential]) (Ok tt) (Ok tt) (Ok tt) (Ok sample_proxy) java_env.


(** The container of the proxy does not start. *)
Definition start_failure_world : World :=
  sample_world (Some sample_params) (Ok (mkJobDetails None))
    (Ok [npm_credential]) (Ok tt) (Ok tt) (Ok tt)
    (Ok (mkProxy "c0ffee" (Throw boom) (Ok "http://10.0.0.2:1080") "PEM" "net-17"))
    no_env.

(** The proxy never becomes reachable: [url()] times out. *)
Definition url_failure_world : World :=
  sample_world (Some sample_params) (Ok (mkJobDetails None))
    (Ok [npm_credential]) (Ok tt) (Ok tt) (Ok tt)
    (Ok (mkProxy "c0ffee" (Ok tt) (Throw boom) "PEM" "net-17"))
    no_env.

(** An execution in which the credentials were fetched and the image was
    pulled, and which then ends with the thrown [boom] without any call of
    [reportJobError] or [markJobAsProcessed]. *)
Definition failure_left_unreported (w : World) : Prop :=
  In call_getCredentials (trace w sample_context)
  /\ In (call_pull "proxy:latest") (trace w sample_context)
  /\ outcome w sample_context = Throw boom
  /\ unreported (trace w sample_context)
  /\ ~ In call_markJobAsProcessed (trace w sample_context).

(** ** More views of a trace *)

Definition is_reportJobError (e : Event) : bool :=
  match e with call_reportJobError _ _ => true | _ => false end.

Definition is_markJobAsProcessed (e : Event) : bool :=
  match e with call_markJobAsProcessed => true | _ => false end.

Definition is_getJobDetails (e : Event) : bool :=
  match e with call_getJobDetails => true | _ => false end.

Definition is_getCredentials (e : Event) : bool :=
  match e with call_getCredentials => true | _ => false end.

Definition is_pull (e : Event) : bool :=
  match e with call_pull _ => true | _ => false end.

(** How many events of [t] are of kind [f]. *)
Definition occurrences (f : Event -> bool) (t : list Event) : nat :=
  length (filter f t).

(** How many bytes of [s] are 128 or more. *)
Fixpoint high_bytes (s : string) : nat :=
  match s with
  | EmptyString => 0
  | String c rest =>
      (if Nat.ltb (nat_of_ascii c) 128 then 0 else 1) + high_bytes rest
  end.

(** How one execution of the minimal [run] ended. *)
Definition minimal_outcome (w : World) (context : Context) : Result unit :=
  result (start (Minimal.run w context)).

(** A successful execution of the minimal [run]. *)
Definition minimal_successful (w : World) (context : Context) : Prop :=
  minimal_outcome w context = Ok tt /\ not_failed (minimal_trace w context).

(** The four events every execution starts with. *)
Definition greeting (robot : string) (context : Context) : list Event :=
  [core_info (robot ++ " ~ " ++ payload_inputs_json context ++ " ~");
   core_info (robot ++ " ~ starting update ~");
   core_startGroup "Pstart";
   core_endGroup].

(** The two tokens [getDependabotJobParameters] works with: the environment
    variable when it is set and not empty, the parameter otherwise. *)
Definition effective_jobToken (w : World) (params : JobParameters) : string :=
  or_else (env w "GITHUB_DEPENDABOT_JOB_TOKEN") (params_jobToken params).

Definition effective_credentialsToken (w : World) (params : JobParameters)
    : string :=
  or_else (env w "GITHUB_DEPENDABOT_CRED_TOKEN")
          (params_credentialsToken params).

(** A variable of the environment is unset or empty. *)
Definition blank (o : option string) : Prop := o = None \/ o = Some "".

(** The local diagnostic of a failure [msg] with error [e] for the job [id]:
    the message, the error and the pointer to the job's log, two line feeds
    apart. *)
Definition diagnostic (w : World) (msg : string) (e : Error) (id : Z)
    : string :=
  msg ++ (lf ++ lf)
  ++ Error_toString e ++ (lf ++ lf)
  ++ "For more information see: " ++ dependabotJobUrl w (JsNumber id)
  ++ " (write access to the repository is required to view the log)".

(** One part of the job's URL with its slash, nothing when the variable is
    unset or empty. *)
Definition url_part (o : option string) : string :=
  match o with
  | Some s => if String.eqb s "" then "" else s ++ "/"
  | None => ""
  end.

(** ** More sample executions *)

(** [w] with another [process.env]. *)
Definition with_env (environment : string -> option string) (w : World)
    : World :=
  {| not_a_function := not_a_function w;
     large_Number_toString := large_Number_toString w;
     PROXY_IMAGE_NAME := PROXY_IMAGE_NAME w;
     getJobParameters := getJobParameters w;
     env := environment;
     getJobDetails := getJobDetails w;
     getCredentials := getCredentials w;
     reportJobError := reportJobError w;
     markJobAsProcessed := markJobAsProcessed w;
     JSON_parse := JSON_parse w;
     pull := pull w;
     ProxyBuilder_run := ProxyBuilder_run w;
     URL_new := URL_new w;
     generateKeyPair_privateKey := generateKeyPair_privateKey w;
     certificateFromPem := certificateFromPem w;
     toPkcs12Asn1 := toPkcs12Asn1 w;
     toDer_bytes := toDer_bytes w;
     writeFileSync := writeFileSync w;
     mkdirSync := mkdirSync w;
     resolve := resolve w;
     path_join := path_join w;
     homedir := homedir w |}.

(** [w] with another [JSON.parse]. *)
Definition with_JSON_parse (parse : string -> Result (list Credential))
    (w : World) : World :=
  {| not_a_function := not_a_function w;
     large_Number_toString := large_Number_toString w;
     PROXY_IMAGE_NAME := PROXY_IMAGE_NAME w;
     getJobParameters := getJobParameters w;
     env := env w;
     getJobDetails := getJobDetails w;
     getCredentials := getCredentials w;
     reportJobError := reportJobError w;
     markJobAsProcessed := markJobAsProcessed w;
     JSON_parse := parse;
     pull := pull w;
     ProxyBuilder_run := ProxyBuilder_run w;
     URL_new := URL_new w;
     generateKeyPair_privateKey := generateKeyPair_privateKey w;
     certificateFromPem := certificateFromPem w;
     toPkcs12Asn1 := toPkcs12Asn1 w;
     toDer_bytes := toDer_bytes w;
     writeFileSync := writeFileSync w;
     mkdirSync := mkdirSync w;
     resolve := resolve w;
     path_join := path_join w;
     homedir := homedir w |}.

(** [w] with another DER encoder. *)
Definition with_toDer_bytes (encode : string -> string) (w : World) : World :=
  {| not_a_function := not_a_function w;
     large_Number_toString := large_Number_toString w;
     PROXY_IMAGE_NAME := PROXY_IMAGE_NAME w;
     getJobParameters := getJobParameters w;
     env := env w;
     getJobDetails := getJobDetails w;
     getCredentials := getCredentials w;
     reportJobError := reportJobError w;
     markJobAsProcessed := markJobAsProcessed w;
     JSON_parse := JSON_parse w;
     pull := pull w;
     ProxyBuilder_run := ProxyBuilder_run w;
     URL_new := URL_new w;
     generateKeyPair_privateKey := generateKeyPair_privateKey w;
     certificateFromPem := certificateFromPem w;
     toPkcs12Asn1 := toPkcs12Asn1 w;
     toDer_bytes := encode;
     writeFileSync := writeFileSync w;
     mkdirSync := mkdirSync w;
     resolve := resolve w;
     path_join := path_join w;
     homedir := homedir w |}.

(** As [happy_world], with a DER encoding that starts as a sequence with a
    two-byte length does: the bytes 48 and 130. *)
Definition der_world : World :=
  with_toDer_bytes
    (fun asn1 => String (ascii_of_nat 48) (String (ascii_of_nat 130) asn1))
    happy_world.

(** The job details carry the experiment with the value [false]. *)
Definition flag_off_world : World :=
  sample_world (Some sample_params)
    (Ok (mkJobDetails (Some [("other", true); ("proxy-cached", false)])))
    (Ok [npm_credential]) (Ok tt) (Ok tt) (Ok tt) (Ok sample_proxy) no_env.

(** The job token comes from the environment; the server and the repository
    are known. *)
Definition github_env (key : string) : option string :=
  if String.eqb key "GITHUB_DEPENDABOT_JOB_TOKEN" then Some "env-job-token"
  else if String.eqb key "GITHUB_DEPENDABOT_CRED_TOKEN" then Some ""
  else if String.eqb key "GITHUB_SERVER_URL" then Some "https://github.com"
  else if String.eqb key "GITHUB_REPOSITORY" then Some "octo/repo"
  else None.

Definition github_world : World := with_env github_env happy_world.

(** The parameters carry no credentials token, and the environment has none
    either. *)
Definition no_token_world : World :=
  sample_world
    (Some (mkJobParameters 17 "job-token" "" "https://api.example"))
    (Ok (mkJobDetails None)) (Ok [npm_credential]) (Ok tt) (Ok tt) (Ok tt)
    (Ok sample_proxy) no_env.

(** The request for the credentials rejects with a string. *)
Definition odd_fetch_world : World :=
  sample_world (Some sample_params) (Ok (mkJobDetails None))
    (Throw (ThrownOther "socket hang up")) (Ok tt) (Ok tt) (Ok tt)
    (Ok sample_proxy) no_env.

(** The experiments of the job details have a property named
    [hasOwnProperty]. *)
Definition shadowed_world : World :=
  sample_world (Some sample_params)
    (Ok (mkJobDetails (Some [("hasOwnProperty", true); ("proxy-cached", true)])))
    (Ok [npm_credential]) (Ok tt) (Ok tt) (Ok tt) (Ok sample_proxy) no_env.

Definition syntax_error : Thrown :=
  ThrownError (mkError "SyntaxError" "Unexpected token").

(** Not a Dependabot event, and [DEPENDABOT_CREDENTIALS] is not JSON. *)
Definition bad_json_world : World :=
  with_JSON_parse (fun _ => Throw syntax_error) no_parameters_world.

(** Not a Dependabot event, and the image pull fails. *)
Definition local_image_failure_world : World :=
  sample_world None (Ok (mkJobDetails None)) (Ok []) (Ok tt) (Ok tt)
    (Throw (ThrownError registry_unreachable)) (Ok sample_proxy) no_env.

(** The job with the identifier 0, whose request for the job details is
    answered 401. *)
Definition job_zero_world : World :=
  sample_world
    (Some (mkJobParameters 0 "job-token" "cred-token" "https://api.example"))
    (Throw (ThrownError unauthorized)) (Ok [npm_credential]) (Ok tt) (Ok tt)
    (Ok tt) (Ok sample_proxy) no_env.

(** * Reasoning *)

(** ** Tactics *)

(** [flow] unfolds the flow and the monad, leaving strings, environment
    look-ups and the world's answers alone; [cases] then splits on each
    answer the flow is waiting for. *)
Ltac flow :=
  cbv beta iota zeta delta
    [trace outcome minimal_trace jobParameters start
     Canonical.run Minimal.run Canonical.run_outputs Minimal.run_outputs
     run_parameters run_pull run_proxy
     getDependabotJobParameters getCredentialsFromEnv failJob setFailed
     experiment_proxy_cached call_method_hasOwnProperty
     dependabotJobHelp botSay bind ret throw try_catch emit lift call
     get_jobId set_jobId events jobId_after result app negb fst snd
     apiClient cachedMode credentials jobToken dependabotApiUrl].

Ltac stuck x :=
  lazymatch x with
  | context [match _ with _ => _ end] => fail
  | _ => idtac
  end.

Ltac split_flow :=
  match goal with
  | |- context [match ?x with _ => _ end] => stuck x; destruct x eqn:?
  end.

Ltac cases := flow; repeat (split_flow; flow).

(** Looks an event up in a computed trace. *)
Ltac find_in := vm_compute; repeat (first [left; reflexivity | right]).

(** ** Lists of events *)

Lemma files_written_app (a b : list Event) :
  files_written (a ++ b) = (files_written a ++ files_written b)%list.
Proof.
  induction a as [|e a IH]; [reflexivity|].
  destruct e; simpl; rewrite IH; reflexivity.
Qed.

Lemma exported_app (a b : list Event) :
  exported (a ++ b) = (exported a ++ exported b)%list.
Proof.
  induction a as [|e a IH]; [reflexivity|].
  destruct e; simpl; rewrite IH; reflexivity.
Qed.

(** An event outside a class is in no list of that class. *)
Lemma outside_class (cls : Event -> bool) (e : Event) (es : list Event) :
  cls e = false -> forallb cls es = true -> ~ In e es.
Proof.
  intros He H X. rewrite forallb_forall in H. apply H in X.
  rewrite He in X. discriminate X.
Qed.

Lemma files_written_outside (cls : Event -> bool) (es : list Event) :
  (forall f d, cls (call_writeFileSync f d) = false) ->
  forallb cls es = true -> files_written es = [].
Proof.
  intros Hcls. induction es as [|e es IH]; [reflexivity|].
  simpl. intros H. apply andb_prop in H. destruct H as [He Hes].
  destruct e; auto. rewrite Hcls in He. discriminate He.
Qed.

Lemma exported_outside (cls : Event -> bool) (es : list Event) :
  (forall k v, cls (core_exportVariable k v) = false) ->
  forallb cls es = true -> exported es = [].
Proof.
  intros Hcls. induction es as [|e es IH]; [reflexivity|].
  simpl. intros H. apply andb_prop in H. destruct H as [He Hes].
  destruct e; auto. rewrite Hcls in He. discriminate He.
Qed.

Lemma no_proxy_outside (cls : Event -> bool) (es : list Event) :
  (forall e, cls e = true -> is_proxy_event e = false) ->
  forallb cls es = true -> no_proxy es.
Proof.
  intros Hcls H e X. rewrite forallb_forall in H. auto.
Qed.

Lemma no_proxy_app (a b : list Event) :
  no_proxy a -> no_proxy b -> no_proxy (a ++ b).
Proof.
  intros Ha Hb e X. apply in_app_or in X. destruct X; auto.
Qed.

(** [split_in X] takes [X : In e t] apart along the appends and conses of
    [t]; [absent] then refutes each piece: by the two events being
    different, by the class of the list, or by a hypothesis on the list. *)
Ltac split_in X :=
  repeat match type of X with
    | In _ (_ ++ _) => apply in_app_or in X; destruct X as [X|X]
    | In _ (_ :: _) => destruct X as [X|X]
    | In _ [] => destruct X
    end.

Ltac absent :=
  let X := fresh "X" in
  intro X; split_in X;
  first
    [ discriminate X
    | match goal with
      | H : forallb ?cls ?es = true |- _ =>
          match type of X with
          | In ?e es =>
              exact (outside_class cls e es (eq_refl false) H X)
          end
      | H : unreported ?es |- _ => exact (H _ _ X)
      | H : not_failed ?es |- _ => exact (H _ X)
      | H : ~ In _ ?es |- _ => exact (H X)
      end ].

(** ** Reports and marks in order *)

(** A trace without [markJobAsProcessed] is in order. *)
Lemma report_before_mark_unmarked (t : list Event) :
  ~ In call_markJobAsProcessed t -> report_before_mark t.
Proof.
  intros H pre post E. exfalso. apply H. rewrite E.
  apply in_or_app. right. left. reflexivity.
Qed.

(** A trace that starts with the report is in order. *)
Lemma report_before_mark_reported errorType detail (t : list Event) :
  report_before_mark (call_reportJobError errorType detail :: t).
Proof.
  intros pre post E. destruct pre as [|x pre]; simpl in E.
  - discriminate E.
  - injection E as Ex _. subst x. exists errorType, detail. left. reflexivity.
Qed.

(** Events without [markJobAsProcessed] in front keep the order. *)
Lemma report_before_mark_after (a b : list Event) :
  ~ In call_markJobAsProcessed a ->
  report_before_mark b -> report_before_mark (a ++ b).
Proof.
  induction a as [|x a IH]; intros Ha Hb; [exact Hb|].
  intros pre post E. destruct pre as [|y pre].
  - simpl in E. injection E as Ex _. exfalso. apply Ha. left. exact Ex.
  - simpl in E. injection E as Ey E.
    destruct (IH (fun X => Ha (or_intror X)) Hb pre post E) as (ty & d & X).
    exists ty, d. right. exact X.
Qed.

(** Events without [markJobAsProcessed] behind keep the order. *)
Lemma report_before_mark_before (a b : list Event) :
  report_before_mark a ->
  ~ In call_markJobAsProcessed b -> report_before_mark (a ++ b).
Proof.
  intros Ha Hb pre post E.
  apply app_eq_app in E. destruct E as (l & [[E1 E2]|[E1 E2]]).
  - destruct l as [|x l].
    + exfalso. apply Hb. simpl in E2. rewrite <- E2. left. reflexivity.
    + simpl in E2. injection E2 as Ex E2. subst x.
      exact (Ha pre l E1).
  - exfalso. apply Hb. rewrite E2. apply in_or_app. right. left. reflexivity.
Qed.

(** ** Strings *)

Lemma append_assoc (a b c : string) : (a ++ b) ++ c = a ++ b ++ c.
Proof.
  induction a as [|x a IH]; simpl; [reflexivity|]. rewrite IH. reflexivity.
Qed.

Lemma length_append (a b : string) :
  String.length (a ++ b) = String.length a + String.length b.
Proof.
  induction a as [|x a IH]; simpl; [reflexivity|]. rewrite IH. reflexivity.
Qed.

(** The default encoding lengthens a byte string by one byte for each byte
    of 128 or more, and leaves it as it is only when there is none. *)
Lemma utf8_encoding_length (s : string) :
  String.length (utf8_encoding s) = String.length s + high_bytes s.
Proof.
  induction s as [|c s IH]; [reflexivity|].
  cbn [utf8_encoding high_bytes]. unfold utf8_of_byte. cbv zeta.
  rewrite length_append, IH.
  destruct (Nat.ltb (nat_of_ascii c) 128); cbn [String.length]; lia.
Qed.

Lemma utf8_encoding_same (s : string) :
  utf8_encoding s = s <-> high_bytes s = 0.
Proof.
  split.
  - intros E. apply (f_equal String.length) in E.
    rewrite utf8_encoding_length in E. lia.
  - induction s as [|c s IH]; [reflexivity|].
    cbn [utf8_encoding high_bytes]. unfold utf8_of_byte. cbv zeta.
    destruct (Nat.ltb (nat_of_ascii c) 128); intros H; [|discriminate H].
    rewrite (IH H). reflexivity.
Qed.

(** The two variants give [MAVEN_OPTS] and [GRADLE_OPTS] different values
    for the same proxy: the canonical value is longer by the password option
    and the resolved path. *)
Lemma MAVEN_OPTS_values_differ (w : World) (proxyUrl : URL) :
  Minimal.MAVEN_OPTS_value w proxyUrl <> Canonical.MAVEN_OPTS_value w proxyUrl.
Proof.
  intros E. apply (f_equal String.length) in E. revert E.
  unfold Minimal.MAVEN_OPTS_value, Canonical.MAVEN_OPTS_value,
    Minimal.JAVA_SSL_OPTS, Canonical.JAVA_SSL_OPTS, Minimal.trustStore,
    Canonical.trustStore, Canonical.password, Minimal.JAVA_PROXY_OPTS,
    Canonical.JAVA_PROXY_OPTS.
  rewrite !length_append. cbn [String.length]. lia.
Qed.

Lemma GRADLE_OPTS_values_differ (w : World) (proxyUrl : URL) :
  Minimal.GRADLE_OPTS_value w proxyUrl <> Canonical.GRADLE_OPTS_value w proxyUrl.
Proof.
  intros E. apply (f_equal String.length) in E. revert E.
  unfold Minimal.GRADLE_OPTS_value, Canonical.GRADLE_OPTS_value,
    Minimal.JAVA_SSL_OPTS, Canonical.JAVA_SSL_OPTS, Minimal.trustStore,
    Canonical.trustStore, Canonical.password, Minimal.JAVA_PROXY_OPTS,
    Canonical.JAVA_PROXY_OPTS.
  rewrite !length_append. cbn [String.length]. lia.
Qed.

(** [value || ''] is the value the variable had, the empty string when it
    was unset. *)
Lemma or_else_pre_existing (w : World) (key : string) :
  or_else (env w key) "" = pre_existing w key.
Proof.
  unfold or_else, pre_existing. destruct (env w key) as [s|]; [|reflexivity].
  destruct (String.eqb s "") eqn:E; [|reflexivity].
  apply String.eqb_eq in E. symmetry. exact E.
Qed.

(** ** The stages, one by one *)

(** The events of each stage are of the stage's kind. *)
Lemma run_parameters_events w robot context j :
  forallb is_preliminary (events (run_parameters w robot context j)) = true.
Proof. cases; reflexivity. Qed.

Lemma run_pull_events w robot p j :
  forallb is_pull_event (events (run_pull w robot p j)) = true.
Proof. cases; reflexivity. Qed.

Lemma run_proxy_events w robot p j :
  forallb is_proxy_stage_event (events (run_proxy w robot p j)) = true.
Proof. cases; reflexivity. Qed.

Lemma canonical_outputs_events w proxy proxyUrl j :
  forallb is_output_event (events (Canonical.run_outputs w proxy proxyUrl j))
  = true.
Proof. cases; reflexivity. Qed.

Lemma minimal_outputs_events w proxy proxyUrl j :
  forallb is_output_event (events (Minimal.run_outputs w proxy proxyUrl j))
  = true.
Proof. cases; reflexivity. Qed.

(** [stage_facts] adds, for each stage equation at hand, the kind of the
    stage's events. *)
Ltac stage_fact E lemma es cls :=
  lazymatch goal with
  | _ : forallb cls es = true |- _ => fail
  | _ =>
      let H := fresh "K" in
      pose proof lemma as H; rewrite E in H; cbn [events] in H
  end.

Ltac stage_facts :=
  repeat match goal with
    | E : run_parameters ?w ?r ?c ?j = mkOut ?es _ _ |- _ =>
        stage_fact E (run_parameters_events w r c j) es is_preliminary
    | E : run_pull ?w ?r ?p ?j = mkOut ?es _ _ |- _ =>
        stage_fact E (run_pull_events w r p j) es is_pull_event
    | E : run_proxy ?w ?r ?p ?j = mkOut ?es _ _ |- _ =>
        stage_fact E (run_proxy_events w r p j) es is_proxy_stage_event
    | E : Canonical.run_outputs ?w ?x ?u ?j = mkOut ?es _ _ |- _ =>
        stage_fact E (canonical_outputs_events w x u j) es is_output_event
    | E : Minimal.run_outputs ?w ?x ?u ?j = mkOut ?es _ _ |- _ =>
        stage_fact E (minimal_outputs_events w x u j) es is_output_event
    end.

(** What the parameter stage hands to the rest of [run]. *)
Lemma run_parameters_inv w context es j p :
  run_parameters w Canonical.robot context None = mkOut es j (Ok p) ->
  match jobParameters w context with
  | Ok (Some p') =>
      p = p' /\ apiClient p = Some TheApiClient /\
      (exists d, getJobDetails w = Ok d /\ cachedMode p = proxy_cached d) /\
      getCredentials w = Ok (credentials p) /\
      not_failed es
  | Ok None =>
      cachedMode p = true /\ apiClient p = None /\
      JSON_parse w (credentialsText w) = Ok (credentials p)
  | Throw _ => False
  end.
Proof.
  unfold credentialsText, proxy_cached.
  cases; intros H; inversion H; subst; clear H; repeat split;
    try (eexists; split; [reflexivity|];
         match goal with
         | X : experiments _ = _ |- _ => rewrite X; reflexivity
         end);
    try (intros m; absent); eauto.
Qed.

(** Fetched job parameters are what the parameter stage hands on. *)
Lemma run_parameters_fetched w context p :
  jobParameters w context = Ok (Some p) ->
  exists es j,
    run_parameters w Canonical.robot context None = mkOut es j (Ok p).
Proof.
  cases; intros H; inversion H; subst; eauto.
Qed.

(** The parameter stage after a fetch that threw an [Error]: the run is
    marked failed, no API client is handed on, and the stage has a value as
    soon as the credentials text of the environment parses. *)
Lemma run_parameters_fetch_threw w robot context j e :
  let o := run_parameters w robot context j in
  (In call_getJobDetails (events o)
   /\ getJobDetails w = Throw (ThrownError e))
  \/ (In call_getCredentials (events o)
      /\ getCredentials w = Throw (ThrownError e)) ->
  (exists msg, In (core_setFailed msg) (events o))
  /\ match result o with
     | Ok p => apiClient p = None
     | Throw _ => forall c, JSON_parse w (credentialsText w) <> Ok c
     end.
Proof.
  unfold credentialsText.
  cases; cbn zeta; intros [[H E]|[H E]];
    try discriminate E;
    try (exfalso; simpl in H; intuition discriminate);
    (split; [eexists; simpl; eauto 12 | try reflexivity; try discriminate]).
Qed.

(** The image-pull stage: the three events it always starts with, and what
    follows them in each of its endings. *)
Lemma run_pull_inv w robot p j es j' r :
  run_pull w robot p j = mkOut es j' r ->
  j' = j /\
  exists tail,
    es = core_startGroup "Pulling updater images" :: core_endGroup
         :: call_pull (PROXY_IMAGE_NAME w) :: tail /\
    match r with
    | Ok true =>
        tail = [] /\
        forall e, pull w (PROXY_IMAGE_NAME w) <> Throw (ThrownError e)
    | Ok false =>
        exists e msg,
          pull w (PROXY_IMAGE_NAME w) = Throw (ThrownError e) /\
          tail =
            (match apiClient p with
             | Some _ =>
                 [call_reportJobError "actions_workflow_image" (message e);
                  call_markJobAsProcessed]
             | None => []
             end
             ++ [core_setFailed msg;
                 core_info (robot ++ " ~ finished: error reported to Dependabot ~")])%list
    | Throw t =>
        exists e,
          pull w (PROXY_IMAGE_NAME w) = Throw (ThrownError e) /\
          apiClient p <> None /\
          ((reportJobError w = Throw t /\
            tail = [call_reportJobError "actions_workflow_image" (message e)])
           \/
           (markJobAsProcessed w = Throw t /\
            tail = [call_reportJobError "actions_workflow_image" (message e);
                    call_markJobAsProcessed]))
    end.
Proof.
  cases; intros H; inversion H; subst; clear H; split; try reflexivity;
    eexists; (split; [reflexivity|]);
    try (split; [reflexivity | intros; discriminate]);
    try (eexists; eexists; split; reflexivity);
    try (eexists; repeat split; [discriminate | auto]).
Qed.

(** The pull stage reports before it marks. *)
Lemma run_pull_ordered w robot p j :
  report_before_mark (events (run_pull w robot p j)).
Proof.
  destruct (run_pull w robot p j) as [es j' r] eqn:E. cbn [events].
  apply run_pull_inv in E. destruct E as (_ & tail & -> & H).
  apply (report_before_mark_after [_; _; _]); [absent|].
  destruct r as [[|]|t].
  - destruct H as [-> _]. apply report_before_mark_unmarked. absent.
  - destruct H as (e & msg & _ & ->). destruct (apiClient p).
    + apply report_before_mark_reported.
    + apply report_before_mark_unmarked. absent.
  - destruct H as (e & _ & _ & [[_ ->]|[_ ->]]);
      apply report_before_mark_reported.
Qed.

(** The pull stage without an API client calls neither [reportJobError] nor
    [markJobAsProcessed], and does not throw. *)
Lemma run_pull_without_client w robot p j es j' r :
  apiClient p = None ->
  run_pull w robot p j = mkOut es j' r ->
  unreported es /\ ~ In call_markJobAsProcessed es /\ exists b, r = Ok b.
Proof.
  intros Hp E.
  apply run_pull_inv in E. destruct E as (_ & tail & -> & H).
  rewrite Hp in H. destruct r as [[|]|t].
  - destruct H as [-> _]. repeat split; [intros ty d; absent | absent | eauto].
  - destruct H as (e & msg & _ & ->).
    repeat split; [intros ty d; absent | absent | eauto].
  - destruct H as (e & _ & X & _). contradiction.
Qed.

(** The proxy stage: its first five events, the rest, and what a value of
    the stage means. *)
Lemma run_proxy_inv w robot p j es j' r :
  run_proxy w robot p j = mkOut es j' r ->
  j' = j /\
  exists tail,
    es = core_endGroup
         :: core_info (robot ++ " ~ initialize proxy builder ~")
         :: new_ProxyBuilder (PROXY_IMAGE_NAME w) (cachedMode p)
         :: core_info (robot ++ " ~ building proxy ~")
         :: call_ProxyBuilder_run j (jobToken p) (dependabotApiUrl p)
              (credentials p)
         :: tail /\
    forallb is_proxy_start_event tail = true /\
    forall proxy proxyUrl,
      r = Ok (proxy, proxyUrl) ->
      ProxyBuilder_run w (PROXY_IMAGE_NAME w) (cachedMode p) j (jobToken p)
        (dependabotApiUrl p) (credentials p) = Ok proxy /\
      container_start proxy = Ok tt /\
      exists s, url proxy = Ok s /\ URL_new w s = Ok proxyUrl.
Proof.
  cases; intros H; inversion H; subst; clear H; split; try reflexivity;
    eexists; (split; [reflexivity|]); (split; [reflexivity|]);
    intros proxy proxyUrl X; inversion X; subst; clear X.
  repeat split; auto.
  - match goal with u : unit |- _ => destruct u end. assumption.
  - eexists. split; eassumption.
Qed.

(** When the canonical output stage returns, its events are the four
    file-system calls and the eight exports, in order. *)
Lemma run_outputs_inv w proxy proxyUrl j es j' :
  Canonical.run_outputs w proxy proxyUrl j = mkOut es j' (Ok tt) ->
  exists certificate p12,
    certificateFromPem w (cert proxy) = Ok certificate /\
    toPkcs12Asn1 w (Some (generateKeyPair_privateKey w 2048)) certificate
      (Some Canonical.password) (Some Canonical.p12_options) = Ok p12 /\
    es =
      [call_writeFileSync (Canonical.trustStore w) (toDer_bytes w p12);
       call_writeFileSync (Canonical.pemFile w) (cert proxy);
       call_mkdirSync (Canonical.m2_dir w);
       call_writeFileSync (path_join w (Canonical.m2_dir w) "settings.xml")
         (Canonical.settings proxyUrl);
       core_exportVariable "MAVEN_OPTS" (Canonical.MAVEN_OPTS_value w proxyUrl);
       core_exportVariable "GRADLE_OPTS" (Canonical.GRADLE_OPTS_value w proxyUrl);
       core_exportVariable "SEMMLE_JAVA_EXTRACTOR_JVM_ARGS"
         (Canonical.SEMMLE_value w proxyUrl);
       core_exportVariable "CODEQL_JAVA_EXTRACTOR_TRUST_STORE_PATH"
         (Canonical.trustStore w);
       core_exportVariable "PROXY_NETWORK_NAME" (networkName proxy);
       core_exportVariable "PROXY_HOST" (hostname proxyUrl);
       core_exportVariable "PROXY_PORT" (port proxyUrl);
       core_exportVariable "PROXY_CA_CERT" (Canonical.pemFile w)].
Proof.
  cases; intros H; inversion H; subst; clear H.
  eexists; eexists. repeat split; eauto.
Qed.

(** The minimal output stage: it exports nothing unless it returns, the
    one file it writes is the trust store, and what it leaves when it
    returns. *)
Lemma minimal_outputs_inv w proxy proxyUrl j es j' r :
  Minimal.run_outputs w proxy proxyUrl j = mkOut es j' r ->
  (exported es = [] \/ r = Ok tt)
  /\ (files_written es = []
      \/ exists certificate p12,
           certificateFromPem w (cert proxy) = Ok certificate
           /\ toPkcs12Asn1 w None certificate None None = Ok p12
           /\ files_written es =
                [("keystore.p12", utf8_encoding (toDer_bytes w p12))])
  /\ (r = Ok tt ->
      exists certificate p12,
        certificateFromPem w (cert proxy) = Ok certificate
        /\ toPkcs12Asn1 w None certificate None None = Ok p12
        /\ es =
             [call_writeFileSync "keystore.p12"
                (utf8_encoding (toDer_bytes w p12));
              core_exportVariable "MAVEN_OPTS"
                (Minimal.MAVEN_OPTS_value w proxyUrl);
              core_exportVariable "GRADLE_OPTS"
                (Minimal.GRADLE_OPTS_value w proxyUrl)]).
Proof.
  cases; intros H; inversion H; subst; clear H;
    (split; [first [left; reflexivity | right; reflexivity]|]);
    (split;
     [first [left; reflexivity
            | right; eexists; eexists; repeat split; eauto]|]);
    intros X; try discriminate X.
  eexists; eexists. repeat split; eauto.
Qed.

(** The minimal output stage exports nothing but [MAVEN_OPTS] and
    [GRADLE_OPTS], and writes nothing but [keystore.p12]. *)
Lemma minimal_outputs_names w proxy proxyUrl j :
  incl (exported_names (events (Minimal.run_outputs w proxy proxyUrl j)))
       ["MAVEN_OPTS"; "GRADLE_OPTS"].
Proof.
  unfold exported_names. cases; simpl; intros x X; simpl in *; intuition.
Qed.

Lemma minimal_outputs_files w proxy proxyUrl j :
  incl (map fst (files_written (events (Minimal.run_outputs w proxy proxyUrl j))))
       ["keystore.p12"].
Proof.
  cases; simpl; intros x X; simpl in *; intuition.
Qed.

(** The bytes in front of [botSay]'s messages change neither the value nor
    the [jobId] of the first three stages. *)
Lemma run_parameters_variants w r1 r2 context j :
  result (run_parameters w r1 context j)
  = result (run_parameters w r2 context j)
  /\ jobId_after (run_parameters w r1 context j)
     = jobId_after (run_parameters w r2 context j).
Proof. cases; split; reflexivity. Qed.

Lemma run_pull_variants w r1 r2 p j :
  result (run_pull w r1 p j) = result (run_pull w r2 p j)
  /\ jobId_after (run_pull w r1 p j) = jobId_after (run_pull w r2 p j).
Proof. cases; split; reflexivity. Qed.

Lemma run_proxy_variants w r1 r2 p j :
  result (run_proxy w r1 p j) = result (run_proxy w r2 p j)
  /\ jobId_after (run_proxy w r1 p j) = jobId_after (run_proxy w r2 p j).
Proof. cases; split; reflexivity. Qed.

(** ** The stages, in sequence *)

Lemma canonical_stages w context :
  Stages w Canonical.robot (Canonical.run_outputs w) context
    (start (Canonical.run w context)).
Proof.
  unfold start, Canonical.run, bind.
  destruct (run_parameters w Canonical.robot context None)
    as [es1 j1 [p|t]] eqn:E1; [|eapply parameters_threw; eassumption].
  destruct (run_pull w Canonical.robot p j1) as [es2 j2 [[|]|t]] eqn:E2;
    cbn [negb].
  - destruct (run_proxy w Canonical.robot p j2)
      as [es3 j3 [[proxy proxyUrl]|t]] eqn:E3.
    + cbn [fst snd].
      destruct (Canonical.run_outputs w proxy proxyUrl j3)
        as [es4 j4 r] eqn:E4.
      eapply outputs_reached; eassumption.
    + eapply proxy_threw; eassumption.
  - unfold ret. rewrite app_nil_r. eapply pull_failed; eassumption.
  - eapply pull_threw; eassumption.
Qed.

Lemma minimal_stages w context :
  Stages w Minimal.robot (Minimal.run_outputs w) context
    (start (Minimal.run w context)).
Proof.
  unfold start, Minimal.run, bind.
  destruct (run_parameters w Minimal.robot context None)
    as [es1 j1 [p|t]] eqn:E1; [|eapply parameters_threw; eassumption].
  destruct (run_pull w Minimal.robot p j1) as [es2 j2 [[|]|t]] eqn:E2;
    cbn [negb].
  - destruct (run_proxy w Minimal.robot p j2)
      as [es3 j3 [[proxy proxyUrl]|t]] eqn:E3.
    + cbn [fst snd].
      destruct (Minimal.run_outputs w proxy proxyUrl j3)
        as [es4 j4 r] eqn:E4.
      eapply outputs_reached; eassumption.
    + eapply proxy_threw; eassumption.
  - unfold ret. rewrite app_nil_r. eapply pull_failed; eassumption.
  - eapply pull_threw; eassumption.
Qed.

(** [by_stages S] goes through the five ways [S : Stages ...] can have gone,
    with the kind of each stage's events at hand. *)
Ltac by_stages S :=
  destruct S as [es1 j1 t E1|es1 j1 q es2 j2 t E1 E2|es1 j1 q es2 j2 E1 E2
                |es1 j1 q es2 j2 es3 j3 t E1 E2 E3
                |es1 j1 q es2 j2 es3 j3 proxy proxyUrl es4 j4 r E1 E2 E3 E4];
  cbn [events result jobId_after] in *; stage_facts.

(** The execution of the canonical [run], by stages. *)
Ltac canonical_by_stages S :=
  repeat progress unfold trace, outcome in *; by_stages S.

(** The parameter stage hands no API client on once it has marked the run
    failed. *)
Lemma run_parameters_failed w robot context j :
  let o := run_parameters w robot context j in
  (exists msg, In (core_setFailed msg) (events o)) ->
  match result o with
  | Ok p => apiClient p = None
  | Throw _ => True
  end.
Proof.
  cases; cbn zeta; intros [msg H]; try exact I; try reflexivity;
    exfalso; simpl in H; intuition discriminate.
Qed.

(** On the same inputs the minimal [run] reaches its output stage when the
    canonical one does, with the same proxy, URL and [jobId]; its files and
    exports are those of its output stage. *)
Lemma minimal_run_follows w context es1 j1 p es2 j2 es3 j3 proxy proxyUrl :
  run_parameters w Canonical.robot context None = mkOut es1 j1 (Ok p) ->
  run_pull w Canonical.robot p j1 = mkOut es2 j2 (Ok true) ->
  run_proxy w Canonical.robot p j2 = mkOut es3 j3 (Ok (proxy, proxyUrl)) ->
  exported (minimal_trace w context)
  = exported (events (Minimal.run_outputs w proxy proxyUrl j3))
  /\ files_written (minimal_trace w context)
     = files_written (events (Minimal.run_outputs w proxy proxyUrl j3)).
Proof.
  intros H1 H2 H3.
  unfold minimal_trace, start, Minimal.run, bind.
  destruct (run_parameters_variants w Canonical.robot Minimal.robot context None)
    as [R1 J1].
  pose proof (run_parameters_events w Minimal.robot context None) as K1.
  rewrite H1 in R1, J1.
  destruct (run_parameters w Minimal.robot context None) as [es1' j1' r1'].
  cbn [events result jobId_after] in *. subst r1' j1'.
  destruct (run_pull_variants w Canonical.robot Minimal.robot p j1) as [R2 J2].
  pose proof (run_pull_events w Minimal.robot p j1) as K2.
  rewrite H2 in R2, J2.
  destruct (run_pull w Minimal.robot p j1) as [es2' j2' r2'].
  cbn [events result jobId_after] in *. subst r2' j2'. cbn [negb].
  destruct (run_proxy_variants w Canonical.robot Minimal.robot p j2) as [R3 J3].
  pose proof (run_proxy_events w Minimal.robot p j2) as K3.
  rewrite H3 in R3, J3.
  destruct (run_proxy w Minimal.robot p j2) as [es3' j3' r3'].
  cbn [events result jobId_after] in *. subst r3' j3'.
  cbn [fst snd].
  destruct (Minimal.run_outputs w proxy proxyUrl j3) as [es4 j4 r4].
  cbn [events].
  rewrite !exported_app, !files_written_app,
    (exported_outside is_preliminary es1'),
    (exported_outside is_pull_event es2'),
    (exported_outside is_proxy_stage_event es3'),
    (files_written_outside is_preliminary es1'),
    (files_written_outside is_pull_event es2'),
    (files_written_outside is_proxy_stage_event es3'); auto.
Qed.

(** Once the parameter stage has marked the run failed, nothing is reported
    to the job-control service in the whole execution. *)
Lemma failed_parameters_unreported (w : World) (context : Context) :
  (exists msg,
      In (core_setFailed msg)
         (events (run_parameters w Canonical.robot context None))) ->
  unreported (trace w context)
  /\ ~ In call_markJobAsProcessed (trace w context).
Proof.
  intros F. apply run_parameters_failed in F. cbv zeta in F.
  pose proof (canonical_stages w context) as S.
  canonical_by_stages S; rewrite E1 in F; cbn [result] in F;
    try (destruct (run_pull_without_client w _ _ _ _ _ _ F E2)
           as (U & M & b & Hb); try discriminate Hb);
    (split; [intros ty d; absent | absent]).
Qed.

(** * The claims *)

(** ** Failures after the credentials were fetched *)

(** When the image pull does not throw an [Error], nothing is reported to
    the job-control service, however the later stages end. *)
Lemma later_failures_unreported (w : World) (context : Context) :
  (forall e, pull w (PROXY_IMAGE_NAME w) <> Throw (ThrownError e)) ->
  unreported (trace w context)
  /\ ~ In call_markJobAsProcessed (trace w context).
Proof.
  intros Hpull.
  pose proof (canonical_stages w context) as S.
  canonical_by_stages S;
    try (apply run_pull_inv in E2; destruct E2 as (_ & tail & -> & H)).
  - split; [intros ty d; absent | absent].
  - exfalso. destruct H as (e & He & _). exact (Hpull e He).
  - exfalso. destruct H as (e & msg & He & _). exact (Hpull e He).
  - destruct H as [-> _]. split; [intros ty d; absent | absent].
  - destruct H as [-> _]. split; [intros ty d; absent | absent].
Qed.

(** C1, at executions it fails on.  The credentials were fetched and the
    image was pulled; then [ProxyBuilder.run] throws, or the container does
    not start, or [proxy.url()] throws: each time [run] ends with the thrown
    error, and neither [reportJobError] nor [markJobAsProcessed] was
    called. *)
Theorem proxy_failure_not_reported :
  failure_left_unreported proxy_failure_world
  /\ failure_left_unreported start_failure_world
  /\ failure_left_unreported url_failure_world.
Proof.
  unfold failure_left_unreported.
  split; [|split];
    (split; [find_in|]); (split; [find_in|]); (split; [reflexivity|]);
    apply later_failures_unreported; intros e; discriminate.
Qed.

(** ** A failed fetch *)

(** The stages after the first emit neither of the two fetches. *)
Lemma stages_fetches w robot outputs context o e :
  (forall proxy proxyUrl j,
      forallb is_output_event (events (outputs proxy proxyUrl j)) = true) ->
  e = call_getJobDetails \/ e = call_getCredentials ->
  Stages w robot outputs context o ->
  In e (events o) ->
  In e (events (run_parameters w robot context None)).
Proof.
  intros Hout He S.
  by_stages S; rewrite E1; cbn [events];
    try (pose proof (Hout proxy proxyUrl j3) as K4; rewrite E4 in K4;
         cbn [events] in K4);
    intros X; split_in X; auto; exfalso; revert X;
    destruct He; subst e; absent.
Qed.

(** After a fetch that threw an [Error] the flow does not stop: the
    parameter stage falls back on the credentials of the environment, and as
    soon as their text parses, the image pull is made. *)
Lemma fetch_failure_goes_on (w : World) (context : Context) (e : Error) :
  fetch_threw w context e ->
  forall c, JSON_parse w (credentialsText w) = Ok c ->
            In (call_pull (PROXY_IMAGE_NAME w)) (trace w context).
Proof.
  intros F.
  assert (F1 :
    (In call_getJobDetails (events (run_parameters w Canonical.robot context None))
     /\ getJobDetails w = Throw (ThrownError e))
    \/ (In call_getCredentials (events (run_parameters w Canonical.robot context None))
        /\ getCredentials w = Throw (ThrownError e))).
  { destruct F as [[X E]|[X E]]; [left|right]; (split; [|exact E]);
      eapply stages_fetches;
      eauto using canonical_stages, canonical_outputs_events. }
  clear F. apply run_parameters_fetch_threw in F1. cbv zeta in F1.
  destruct F1 as [_ Hres].
  pose proof (canonical_stages w context) as S.
  canonical_by_stages S; rewrite E1 in *; cbn [events result] in *;
    intros c Hc; [exfalso; exact (Hres c Hc) | ..];
    apply run_pull_inv in E2; destruct E2 as (_ & tail & -> & _);
    apply in_or_app; right; simpl; auto.
Qed.

(** C2, at an execution it fails on.  The request for the job details is
    answered 401.  Nothing is reported and the run is marked failed with the
    local diagnostic, as the claim has it; but [run] does not end there: it
    pulls the image, constructs the proxy builder in cached mode, calls it
    for the job 17 with an empty token, an empty URL and no credentials,
    exports the eight variables and returns. *)
Theorem fetch_failure_not_terminal :
  fetch_threw unauthorized_world sample_context unauthorized
  /\ unreported (trace unauthorized_world sample_context)
  /\ In (core_setFailed
           (diagnostic unauthorized_world
              "Dependabot encountered an unexpected problem" unauthorized 17))
        (trace unauthorized_world sample_context)
  /\ In (call_pull "proxy:latest") (trace unauthorized_world sample_context)
  /\ In (new_ProxyBuilder "proxy:latest" true)
        (trace unauthorized_world sample_context)
  /\ In (call_ProxyBuilder_run (Some 17%Z) "" "" [])
        (trace unauthorized_world sample_context)
  /\ exported_names (trace unauthorized_world sample_context) =
       ["MAVEN_OPTS"; "GRADLE_OPTS"; "SEMMLE_JAVA_EXTRACTOR_JVM_ARGS";
        "CODEQL_JAVA_EXTRACTOR_TRUST_STORE_PATH"; "PROXY_NETWORK_NAME";
        "PROXY_HOST"; "PROXY_PORT"; "PROXY_CA_CERT"]
  /\ outcome unauthorized_world sample_context = Ok tt
  /\ ~ fetch_failure_ends_run unauthorized_world sample_context.
Proof.
  assert (F : fetch_threw unauthorized_world sample_context unauthorized).
  { left. split; [find_in | reflexivity]. }
  split; [exact F|].
  split; [apply later_failures_unreported; intros e; discriminate|].
  split; [find_in|]. split; [find_in|]. split; [find_in|]. split; [find_in|].
  split; [reflexivity|]. split; [reflexivity|].
  intros H. destruct (H unauthorized F) as (_ & _ & X & _).
  apply X. find_in.
Qed.

(** ** A failed image pull *)

Lemma no_proxy_preliminary (es : list Event) :
  forallb is_preliminary es = true -> no_proxy es.
Proof.
  apply no_proxy_outside. intros e. destruct e; simpl; congruence.
Qed.

Lemma no_proxy_pull (es : list Event) :
  forallb is_pull_event es = true -> no_proxy es.
Proof.
  apply no_proxy_outside. intros e. destruct e; simpl; congruence.
Qed.

(** C3, as the flow has it.  With the job parameters fetched, when
    [ImageService.pull] throws an [Error], [run] calls [reportJobError] with
    the error type [actions_workflow_image] right after the pull, and never
    constructs or starts a proxy.  When that call and the call of
    [markJobAsProcessed] both return, [run] ends with the report, the mark,
    the failed mark of the run and the closing message, and returns. *)
Theorem image_failure_reported (w : World) (context : Context)
    (p : DependabotJobParameters) (e : Error) :
  jobParameters w context = Ok (Some p) ->
  pull w (PROXY_IMAGE_NAME w) = Throw (ThrownError e) ->
  (exists pre post,
      trace w context =
        (pre ++ call_pull (PROXY_IMAGE_NAME w)
             :: call_reportJobError "actions_workflow_image" (message e)
             :: post)%list)
  /\ no_proxy (trace w context)
  /\ (reportJobError w = Ok tt -> markJobAsProcessed w = Ok tt ->
      outcome w context = Ok tt
      /\ exists pre msg,
           trace w context =
             (pre ++ [call_reportJobError "actions_workflow_image" (message e);
                      call_markJobAsProcessed;
                      core_setFailed msg;
                      core_info (Canonical.robot
                                 ++ " ~ finished: error reported to Dependabot ~")])%list).
Proof.
  intros Hp Hpull.
  destruct (run_parameters_fetched w context p Hp) as (es1' & j1' & E).
  pose proof (run_parameters_inv w context es1' j1' p E) as I.
  rewrite Hp in I. destruct I as (_ & Hclient & _).
  pose proof (canonical_stages w context) as S.
  canonical_by_stages S;
    rewrite E in E1; inversion E1; subst; clear E1;
    apply run_pull_inv in E2; destruct E2 as (_ & tail & -> & H).
  - destruct H as (e' & He' & _ & H). rewrite Hpull in He'.
    injection He' as <-.
    split; [|split].
    + exists (es1 ++ [core_startGroup "Pulling updater images"; core_endGroup])%list.
      destruct H as [[_ ->]|[_ ->]]; eexists; rewrite <- app_assoc; reflexivity.
    + apply no_proxy_app; [apply no_proxy_preliminary | apply no_proxy_pull];
        assumption.
    + intros R M. destruct H as [[X _]|[X _]]; congruence.
  - destruct H as (e' & msg & He' & ->). rewrite Hpull in He'.
    injection He' as <-. rewrite Hclient in *.
    split; [|split].
    + exists (es1 ++ [core_startGroup "Pulling updater images"; core_endGroup])%list.
      eexists. rewrite <- app_assoc. reflexivity.
    + apply no_proxy_app; [apply no_proxy_preliminary | apply no_proxy_pull];
        assumption.
    + intros _ _. split; [reflexivity|].
      exists (es1 ++ [core_startGroup "Pulling updater images"; core_endGroup;
                      call_pull (PROXY_IMAGE_NAME w)])%list, msg.
      rewrite <- app_assoc. reflexivity.
  - exfalso. destruct H as [_ H]. exact (H e Hpull).
  - exfalso. destruct H as [_ H]. exact (H e Hpull).
Qed.

(** C3 at the execution whose image pull fails and whose report is taken. *)
Lemma image_failure_reported_witness :
  jobParameters image_failure_world sample_context
  = Ok (Some {| jobToken := "job-token";
                dependabotApiUrl := "https://api.example";
                cachedMode := false;
                credentials := [npm_credential];
                apiClient := Some TheApiClient |})
  /\ outcome image_failure_world sample_context = Ok tt
  /\ no_proxy (trace image_failure_world sample_context).
Proof.
  split; [reflexivity|].
  destruct (image_failure_reported image_failure_world sample_context _
              registry_unreachable eq_refl eq_refl) as (_ & N & F).
  split; [|exact N].
  exact (proj1 (F eq_refl eq_refl)).
Defined.

(** C3 as stated fails: when the report itself throws, the job is not
    marked processed and [run] does not return. *)
Lemma image_failure_always_finalised_refuted :
  ~ image_failure_always_finalised report_failure_world sample_context.
Proof.
  intros H.
  destruct (H _ registry_unreachable eq_refl eq_refl) as (_ & X & _).
  discriminate X.
Qed.

(** ** Credentials and the files written *)

(** The files written in an execution are those of its output stage, when
    the execution gets there. *)
Lemma files_of_run (w : World) (context : Context) :
  files_written (trace w context) =
    match run_parameters w Canonical.robot context None with
    | mkOut _ j1 (Ok p) =>
        match run_pull w Canonical.robot p j1 with
        | mkOut _ j2 (Ok true) =>
            match run_proxy w Canonical.robot p j2 with
            | mkOut _ j3 (Ok (proxy, proxyUrl)) =>
                files_written
                  (events (Canonical.run_outputs w proxy proxyUrl j3))
            | _ => []
            end
        | _ => []
        end
    | _ => []
    end.
Proof.
  pose proof (canonical_stages w context) as S.
  canonical_by_stages S;
    rewrite E1; try rewrite E2; try rewrite E3; try rewrite E4;
    cbn [events]; rewrite ?files_written_app;
    rewrite (files_written_outside is_preliminary es1); auto;
    try (rewrite (files_written_outside is_pull_event es2); auto);
    try (rewrite (files_written_outside is_proxy_stage_event es3); auto).
Qed.

(** The parameter stage of two executions that differ only in their
    credentials ends alike, with parameters that agree on everything but the
    credentials. *)
Lemma run_parameters_sbc w1 w2 robot context j :
  same_but_credentials w1 w2 ->
  jobId_after (run_parameters w1 robot context j)
  = jobId_after (run_parameters w2 robot context j)
  /\ match result (run_parameters w1 robot context j),
           result (run_parameters w2 robot context j) with
     | Ok p1, Ok p2 => same_but_credentials_parameters p1 p2
     | Throw t1, Throw t2 => t1 = t2
     | _, _ => False
     end.
Proof.
  intros [_ Hparams Henv Hdetails Hcreds _ _ Hparse _ _ _ _ _ _ _ _ _ _ _ _].
  unfold same_kind, credentialsText, same_but_credentials_parameters in *.
  flow.
  rewrite <- Hparams, <- Hdetails,
    <- (Henv "GITHUB_DEPENDABOT_JOB_TOKEN"),
    <- (Henv "GITHUB_DEPENDABOT_CRED_TOKEN") by discriminate.
  destruct (getCredentials w1) as [c1|t1], (getCredentials w2) as [c2|t2];
    try contradiction; try subst t2;
    destruct (JSON_parse w1 (or_else (env w1 "DEPENDABOT_CREDENTIALS") "[]"))
      as [e1|u1],
      (JSON_parse w2 (or_else (env w2 "DEPENDABOT_CREDENTIALS") "[]"))
      as [e2|u2];
    try contradiction; try subst u2;
    cases; auto.
Qed.

(** So does the pull stage. *)
Lemma run_pull_sbc w1 w2 robot p1 p2 j :
  same_but_credentials w1 w2 ->
  apiClient p1 = apiClient p2 ->
  result (run_pull w1 robot p1 j) = result (run_pull w2 robot p2 j)
  /\ jobId_after (run_pull w1 robot p1 j) = jobId_after (run_pull w2 robot p2 j).
Proof.
  intros [Himage _ _ _ _ Hreport Hmark _ Hpull _ _ _ _ _ _ _ _ _ _ _] Hclient.
  unfold run_pull, failJob.
  rewrite Hclient, <- Himage, <- Hreport, <- Hmark, <- Hpull.
  cases; auto.
Qed.

(** So does the proxy stage: the builder returns the same proxy. *)
Lemma run_proxy_sbc w1 w2 robot p1 p2 j :
  same_but_credentials w1 w2 ->
  same_but_credentials_parameters p1 p2 ->
  result (run_proxy w1 robot p1 j) = result (run_proxy w2 robot p2 j)
  /\ jobId_after (run_proxy w1 robot p1 j)
     = jobId_after (run_proxy w2 robot p2 j).
Proof.
  intros [Himage _ _ _ _ _ _ _ _ Hproxy Hurl _ _ _ _ _ _ _ _ _]
    (Htoken & Hapi & Hcached & _).
  unfold run_proxy.
  rewrite <- Himage, Htoken, Hapi, Hcached.
  assert (B : forall jid,
             ProxyBuilder_run w1 (PROXY_IMAGE_NAME w1) (cachedMode p2) jid
               (jobToken p2) (dependabotApiUrl p2) (credentials p1)
             = ProxyBuilder_run w2 (PROXY_IMAGE_NAME w1) (cachedMode p2) jid
                 (jobToken p2) (dependabotApiUrl p2) (credentials p2))
    by (intros; apply Hproxy).
  flow. rewrite <- B.
  cases; try rewrite <- Hurl in *; split; congruence.
Qed.

(** The output stage, which is not given the credentials, writes the same
    files. *)
Lemma run_outputs_sbc w1 w2 proxy proxyUrl j :
  same_but_credentials w1 w2 ->
  files_written (events (Canonical.run_outputs w1 proxy proxyUrl j))
  = files_written (events (Canonical.run_outputs w2 proxy proxyUrl j)).
Proof.
  intros [_ _ _ _ _ _ _ _ _ _ _ Hkey Hpem Hp12 Hder Hwrite Hmkdir Hresolve
          Hjoin Hhome].
  flow.
  unfold Canonical.trustStore, Canonical.pemFile, Canonical.m2_dir.
  rewrite <- Hhome.
  repeat first [rewrite <- Hkey | rewrite <- Hpem | rewrite <- Hresolve
               | rewrite <- Hjoin | rewrite <- Hmkdir].
  destruct (certificateFromPem w1 (cert proxy)) as [c|t]; [|reflexivity].
  flow. rewrite <- Hp12.
  destruct (toPkcs12Asn1 w1 (Some (generateKeyPair_privateKey w1 2048)) c
              (Some Canonical.password) (Some Canonical.p12_options))
    as [a|t]; [|reflexivity].
  flow. rewrite <- !Hder, <- !Hwrite.
  cases; reflexivity.
Qed.

(** C4.  Two executions of [run] whose worlds differ only in the credential
    set write the same files, with the same contents: the trust store (for
    the same dummy key), the PEM certificate and Maven's settings carry
    nothing of the credentials. *)
Theorem files_independent_of_credentials (w1 w2 : World) (context : Context) :
  same_but_credentials w1 w2 ->
  files_written (trace w1 context) = files_written (trace w2 context).
Proof.
  intros S. rewrite !files_of_run.
  destruct (run_parameters_sbc w1 w2 Canonical.robot context None S) as [J1 R1].
  destruct (run_parameters w1 Canonical.robot context None) as [es1 j1 [p1|t1]],
    (run_parameters w2 Canonical.robot context None) as [es1' j1' [p2|t2]];
    cbn [result jobId_after] in *; try contradiction; try reflexivity.
  subst j1'.
  destruct (run_pull_sbc w1 w2 Canonical.robot p1 p2 j1 S (proj2 (proj2 (proj2 R1))))
    as [R2 J2].
  destruct (run_pull w1 Canonical.robot p1 j1) as [es2 j2 r2],
    (run_pull w2 Canonical.robot p2 j1) as [es2' j2' r2'];
    cbn [result jobId_after] in *. subst r2' j2'.
  destruct r2 as [[|]|t2]; try reflexivity.
  destruct (run_proxy_sbc w1 w2 Canonical.robot p1 p2 j2 S R1) as [R3 J3].
  destruct (run_proxy w1 Canonical.robot p1 j2) as [es3 j3 r3],
    (run_proxy w2 Canonical.robot p2 j2) as [es3' j3' r3'];
    cbn [result jobId_after] in *. subst r3' j3'.
  destruct r3 as [[proxy proxyUrl]|t3]; try reflexivity.
  apply run_outputs_sbc. exact S.
Qed.

(** C4 at two executions with different credential sets. *)
Lemma files_independent_of_credentials_witness :
  getCredentials happy_world <> getCredentials other_credentials_world
  /\ files_written (trace happy_world sample_context)
     = files_written (trace other_credentials_world sample_context).
Proof.
  split; [discriminate|].
  apply (files_independent_of_credentials happy_world other_credentials_world
           sample_context).
  constructor; try reflexivity; intros; reflexivity.
Defined.

(** ** Cached mode *)

(** C5, as the flow has it.  The cached mode the proxy builder is
    constructed with is the experiment flag of the fetched job details when
    the job parameters were fetched, and [true] whenever they are
    unavailable and [getCredentialsFromEnv] supplies them. *)
Theorem cached_mode_sources (w : World) (context : Context)
    (image : string) (cached : bool) :
  In (new_ProxyBuilder image cached) (trace w context) ->
  match jobParameters w context with
  | Ok (Some _) => exists d, getJobDetails w = Ok d /\ cached = proxy_cached d
  | Ok None => cached = true
  | Throw _ => False
  end.
Proof.
  pose proof (canonical_stages w context) as S.
  canonical_by_stages S; intros X;
    try (apply run_proxy_inv in E3; destruct E3 as (_ & tail & -> & T & _));
    split_in X;
    try (exfalso; revert X; absent);
    injection X as _ <-;
    apply run_parameters_inv in E1;
    (destruct (jobParameters w context) as [[p|]|]; [| |contradiction]);
    solve [apply E1].
Qed.

(** C5 at the execution of a job that opted in. *)
Lemma cached_mode_sources_witness :
  In (new_ProxyBuilder "proxy:latest" true) (trace opted_in_world sample_context)
  /\ (exists d, getJobDetails opted_in_world = Ok d /\ true = proxy_cached d).
Proof.
  assert (X : In (new_ProxyBuilder "proxy:latest" true)
                (trace opted_in_world sample_context)) by find_in.
  split; [exact X|].
  exact (cached_mode_sources opted_in_world sample_context _ _ X).
Defined.

(** C5 as stated fails: without job parameters no job details were fetched,
    and the proxy builder is constructed in cached mode all the same. *)
Lemma cached_mode_only_by_experiment_refuted :
  ~ cached_mode_only_by_experiment no_parameters_world sample_context.
Proof.
  intros H.
  destruct (H "proxy:latest") as [X _]; [find_in|].
  vm_compute in X. intuition discriminate.
Qed.

(** ** Report before mark *)

(** The sequence of stages only adds, around the pull stage, events that are
    not [markJobAsProcessed] calls. *)
Lemma stages_ordered w robot outputs context o :
  (forall proxy proxyUrl j,
      forallb is_output_event (events (outputs proxy proxyUrl j)) = true) ->
  Stages w robot outputs context o ->
  report_before_mark (events o).
Proof.
  intros Hout S.
  by_stages S;
    try (pose proof (Hout proxy proxyUrl j3) as K4; rewrite E4 in K4;
         cbn [events] in K4);
    try (pose proof (run_pull_ordered w robot q j1) as O; rewrite E2 in O;
         cbn [events] in O).
  - apply report_before_mark_unmarked. absent.
  - apply report_before_mark_after; [absent | exact O].
  - apply report_before_mark_after; [absent | exact O].
  - apply report_before_mark_after; [absent|].
    apply report_before_mark_before; [exact O | absent].
  - apply report_before_mark_after; [absent|].
    apply report_before_mark_before; [exact O | absent].
Qed.

(** C6.  In every execution of [run], each call of [markJobAsProcessed] comes
    after a call of [reportJobError]: no path marks the job processed
    without having reported the failure first. *)
Theorem report_precedes_mark (w : World) (context : Context) :
  report_before_mark (trace w context).
Proof.
  apply (stages_ordered w Canonical.robot (Canonical.run_outputs w) context).
  - apply canonical_outputs_events.
  - apply canonical_stages.
Qed.

(** C6 at the execution whose image pull fails: the trace has the mark, and
    the report before it. *)
Lemma report_precedes_mark_witness :
  In call_markJobAsProcessed (trace image_failure_world sample_context)
  /\ report_before_mark (trace image_failure_world sample_context).
Proof.
  split; [find_in|].
  apply (report_precedes_mark image_failure_world sample_context).
Defined.

(** ** Successful executions *)

(** A successful execution went through the four stages: its trace is what
    came before the outputs, which writes and exports nothing, followed by
    the events of an output stage that returned, run on the proxy the
    builder gave and on its parsed URL. *)
Lemma successful_stages (w : World) (context : Context) :
  successful w context ->
  exists es p jid proxy proxyUrl es4 j4,
    trace w context = (es ++ es4)%list
    /\ files_written es = [] /\ exported es = []
    /\ ProxyBuilder_run w (PROXY_IMAGE_NAME w) (cachedMode p) jid (jobToken p)
         (dependabotApiUrl p) (credentials p) = Ok proxy
    /\ (exists s, url proxy = Ok s /\ URL_new w s = Ok proxyUrl)
    /\ Canonical.run_outputs w proxy proxyUrl jid = mkOut es4 j4 (Ok tt).
Proof.
  intros [Hout Hnf].
  pose proof (canonical_stages w context) as S.
  canonical_by_stages S; try discriminate Hout.
  - exfalso. apply run_pull_inv in E2.
    destruct E2 as (_ & tail & -> & e & msg & _ & ->).
    apply (Hnf msg). apply in_or_app. right. simpl. do 3 right.
    apply in_or_app. right. left. reflexivity.
  - subst r.
    apply run_pull_inv in E2. destruct E2 as (-> & _).
    apply run_proxy_inv in E3. destruct E3 as (-> & tail & _ & _ & R).
    destruct (R proxy proxyUrl eq_refl) as (B & _ & U).
    exists (es1 ++ es2 ++ es3)%list, q, j1, proxy, proxyUrl, es4, j4.
    repeat split; auto.
    + rewrite <- !app_assoc. reflexivity.
    + rewrite !files_written_app.
      rewrite (files_written_outside is_preliminary es1),
        (files_written_outside is_pull_event es2),
        (files_written_outside is_proxy_stage_event es3); auto.
    + rewrite !exported_app.
      rewrite (exported_outside is_preliminary es1),
        (exported_outside is_pull_event es2),
        (exported_outside is_proxy_stage_event es3); auto.
Qed.



(** ** The two variants *)

(** Whatever happens, the minimal [run] exports no other variable than
    [MAVEN_OPTS] and [GRADLE_OPTS] and writes no other file than
    [keystore.p12]. *)
Lemma minimal_effects (w : World) (context : Context) :
  incl (exported_names (minimal_trace w context)) ["MAVEN_OPTS"; "GRADLE_OPTS"]
  /\ incl (map fst (files_written (minimal_trace w context))) ["keystore.p12"].
Proof.
  pose proof (minimal_stages w context) as S.
  unfold exported_names, minimal_trace.
  by_stages S;
    rewrite ?files_written_app, ?exported_app;
    rewrite (files_written_outside is_preliminary es1),
      (exported_outside is_preliminary es1); auto;
    try (rewrite (files_written_outside is_pull_event es2),
          (exported_outside is_pull_event es2); auto);
    try (rewrite (files_written_outside is_proxy_stage_event es3),
          (exported_outside is_proxy_stage_event es3); auto);
    cbn [app map]; try (split; intros x []).
  pose proof (minimal_outputs_names w proxy proxyUrl j3) as N.
  pose proof (minimal_outputs_files w proxy proxyUrl j3) as F.
  unfold exported_names in N. rewrite E4 in N, F. split; assumption.
Qed.




(** ** A thrown value that is not an [Error] *)

(** C9.  When [ImageService.pull] is called and throws a value that is not
    an [Error], [run] goes straight on: the pull is followed by the
    construction of the proxy builder and the call of its [run]; nothing is
    reported to the job-control service in the whole execution, and the run
    is not marked failed from the pull on. *)
Theorem odd_throw_swallowed (w : World) (context : Context) (v : string) :
  In (call_pull (PROXY_IMAGE_NAME w)) (trace w context) ->
  pull w (PROXY_IMAGE_NAME w) = Throw (ThrownOther v) ->
  unreported (trace w context)
  /\ ~ In call_markJobAsProcessed (trace w context)
  /\ exists pre post p j,
       trace w context =
         (pre ++ call_pull (PROXY_IMAGE_NAME w)
              :: core_endGroup
              :: core_info (Canonical.robot ++ " ~ initialize proxy builder ~")
              :: new_ProxyBuilder (PROXY_IMAGE_NAME w) (cachedMode p)
              :: core_info (Canonical.robot ++ " ~ building proxy ~")
              :: call_ProxyBuilder_run j (jobToken p) (dependabotApiUrl p)
                   (credentials p)
              :: post)%list
       /\ not_failed post.
Proof.
  intros Hin Hpull.
  destruct (later_failures_unreported w context) as [U M];
    [intros e; congruence|].
  split; [exact U|]. split; [exact M|]. clear U M.
  pose proof (canonical_stages w context) as S.
  canonical_by_stages S;
    try (apply run_pull_inv in E2; destruct E2 as (-> & tail2 & -> & H)).
  - exfalso. revert Hin. absent.
  - exfalso. destruct H as (e & He & _). congruence.
  - exfalso. destruct H as (e & msg & He & _). congruence.
  - destruct H as [-> _].
    apply run_proxy_inv in E3. destruct E3 as (-> & tail & -> & T & _).
    exists (es1 ++ [core_startGroup "Pulling updater images"; core_endGroup])%list,
      tail, q, j1.
    split; [rewrite <- app_assoc; reflexivity|].
    intros msg. absent.
  - destruct H as [-> _].
    apply run_proxy_inv in E3. destruct E3 as (-> & tail & -> & T & _).
    exists (es1 ++ [core_startGroup "Pulling updater images"; core_endGroup])%list,
      (tail ++ es4)%list, q, j1.
    split; [rewrite <- app_assoc; reflexivity|].
    intros msg. absent.
Qed.

(** C9 at the execution whose image pull throws a string. *)
Lemma odd_throw_swallowed_witness :
  pull odd_throw_world "proxy:latest" = Throw (ThrownOther "timeout")
  /\ unreported (trace odd_throw_world sample_context)
  /\ In (new_ProxyBuilder "proxy:latest" false)
        (trace odd_throw_world sample_context).
Proof.
  split; [reflexivity|].
  assert (X : In (call_pull "proxy:latest")
                (trace odd_throw_world sample_context)) by find_in.
  destruct (odd_throw_swallowed odd_throw_world sample_context "timeout"
              X eq_refl) as (U & _).
  split; [exact U | find_in].
Defined.

(** ** Java options already in the environment *)

(** C10.  In a successful execution each of [MAVEN_OPTS], [GRADLE_OPTS] and
    [SEMMLE_JAVA_EXTRACTOR_JVM_ARGS] is exported with one value, which ends
    with the value the variable had before the run (with the empty string
    when it was unset). *)
Theorem java_options_keep_value (w : World) (context : Context)
    (key : string) :
  successful w context ->
  In key ["MAVEN_OPTS"; "GRADLE_OPTS"; "SEMMLE_JAVA_EXTRACTOR_JVM_ARGS"] ->
  exists prefix,
    forall value,
      In (key, value) (exported (trace w context))
      <-> value = prefix ++ pre_existing w key.
Proof.
  intros S K.
  destruct (successful_stages w context S)
    as (es & p & jid & proxy & proxyUrl & es4 & j4 & -> & _ & X & _ & _ & O).
  apply run_outputs_inv in O.
  destruct O as (certificate & p12 & _ & _ & ->).
  rewrite exported_app, X. cbn [app exported].
  unfold Canonical.MAVEN_OPTS_value, Canonical.GRADLE_OPTS_value,
    Canonical.SEMMLE_value.
  rewrite !or_else_pre_existing.
  destruct K as [<-|[<-|[<-|[]]]];
    [ exists (Canonical.JAVA_SSL_OPTS w ++ " -DproxySet=true "
              ++ Canonical.JAVA_PROXY_OPTS proxyUrl ++ " ")
    | exists (Canonical.JAVA_SSL_OPTS w ++ " "
              ++ Canonical.JAVA_PROXY_OPTS proxyUrl ++ " ")
    | exists (Canonical.JAVA_SSL_OPTS w ++ " "
              ++ Canonical.JAVA_PROXY_OPTS proxyUrl ++ " ") ];
    intros value; rewrite !append_assoc; (split; [intros H | intros ->]).
  - split_in H; try discriminate H. injection H as <-. reflexivity.
  - left. reflexivity.
  - split_in H; try discriminate H. injection H as <-. reflexivity.
  - right. left. reflexivity.
  - split_in H; try discriminate H. injection H as <-. reflexivity.
  - do 2 right. left. reflexivity.
Qed.

(** C10 at an execution with [MAVEN_OPTS=-Xmx1g] in the environment. *)
Lemma java_options_keep_value_witness :
  successful java_world sample_context
  /\ pre_existing java_world "MAVEN_OPTS" = "-Xmx1g"
  /\ exists prefix,
       In ("MAVEN_OPTS", prefix ++ "-Xmx1g")
          (exported (trace java_world sample_context)).
Proof.
  assert (S : successful java_world sample_context).
  { split; [reflexivity|]. intros msg X. vm_compute in X.
    intuition discriminate. }
  split; [exact S|]. split; [reflexivity|].
  destruct (java_options_keep_value java_world sample_context "MAVEN_OPTS" S)
    as [prefix H]; [left; reflexivity|].
  exists prefix. apply H. reflexivity.
Defined.

(** * Further properties of the flow *)

(** ** The parameter stage, in more detail *)

(** The sequence of stages starts with the events of the parameter stage. *)
Lemma stages_prefix w robot outputs context o :
  Stages w robot outputs context o ->
  exists rest,
    events o = (events (run_parameters w robot context None) ++ rest)%list.
Proof.
  intros S.
  destruct S as [es1 j1 t E1|es1 j1 q es2 j2 t E1 E2|es1 j1 q es2 j2 E1 E2
                |es1 j1 q es2 j2 es3 j3 t E1 E2 E3
                |es1 j1 q es2 j2 es3 j3 proxy proxyUrl es4 j4 r E1 E2 E3 E4];
    rewrite E1; cbn [events]; eexists;
    first [reflexivity | symmetry; apply app_nil_r].
Qed.

(** An event that no later stage emits comes from the parameter stage. *)
Lemma canonical_preliminary_only w context e :
  is_pull_event e = false ->
  is_proxy_stage_event e = false ->
  is_output_event e = false ->
  In e (trace w context) ->
  In e (events (run_parameters w Canonical.robot context None)).
Proof.
  intros H2 H3 H4.
  pose proof (canonical_stages w context) as S.
  canonical_by_stages S; rewrite E1; cbn [events]; intros X;
    repeat (apply in_app_or in X; destruct X as [X|X]); auto; exfalso.
  all: first [ exact (outside_class _ _ _ H2 K0 X)
             | exact (outside_class _ _ _ H3 K1 X)
             | exact (outside_class _ _ _ H4 K2 X) ].
Qed.

(** The parameter stage when it fetches, and when it does not: the tokens
    it settles on, the secrets it registers right before the fetch, and the
    [jobId] it leaves. *)
Lemma run_parameters_attempt w robot context :
  let o := run_parameters w robot context None in
  (In call_getJobDetails (events o) ->
   exists params tail,
     getJobParameters w context = Some params
     /\ effective_jobToken w params <> ""
     /\ effective_credentialsToken w params <> ""
     /\ events o =
          (greeting robot context
           ++ core_setSecret (effective_jobToken w params)
           :: core_setSecret (effective_credentialsToken w params)
           :: core_info "Fetching job details"
           :: call_getJobDetails :: tail)%list
     /\ jobId_after o = Some (params_jobId params))
  /\ (~ In call_getJobDetails (events o) ->
      jobId_after o = None
      /\ (forall s, ~ In (core_setSecret s) (events o))
      /\ ~ In call_getCredentials (events o)).
Proof.
  unfold greeting, effective_jobToken, effective_credentialsToken.
  cases; cbn zeta; (split; [intros H | intros H]);
    try (exfalso; simpl in H; intuition discriminate);
    try (exfalso; apply H; simpl; tauto);
    try (repeat split; [intros s | ]; absent);
    eexists; eexists; (split; [reflexivity|]);
    (split; [apply String.eqb_neq; assumption|]);
    (split; [apply String.eqb_neq; assumption|]);
    split; reflexivity.
Qed.

(** ** Tokens *)

(** X1.  For fetched job parameters, the job token is never empty; it is the
    value of [GITHUB_DEPENDABOT_JOB_TOKEN] whenever that variable is set and
    not empty, and the token of the job parameters only when the variable is
    unset or empty.  The API URL is the one of the job parameters. *)
Theorem fetched_job_token (w : World) (context : Context)
    (p : DependabotJobParameters) (params : JobParameters) :
  jobParameters w context = Ok (Some p) ->
  getJobParameters w context = Some params ->
  jobToken p <> ""
  /\ dependabotApiUrl p = params_dependabotApiUrl params
  /\ (forall v, env w "GITHUB_DEPENDABOT_JOB_TOKEN" = Some v -> v <> "" ->
                jobToken p = v)
  /\ (blank (env w "GITHUB_DEPENDABOT_JOB_TOKEN") ->
      jobToken p = params_jobToken params).
Proof.
  unfold blank.
  cases; intros H G; inversion H; inversion G; subst; clear H G;
    (split; [apply String.eqb_neq; assumption|]);
    (split; [reflexivity|]);
    (split;
     [ intros v E N; unfold or_else; rewrite E;
       destruct (String.eqb v "") eqn:X; [|reflexivity];
       apply String.eqb_eq in X; contradiction
     | intros [E|E]; unfold or_else; rewrite E; reflexivity ]).
Qed.

(** X1 at an execution with the job token in the environment and an empty
    credentials-token variable. *)
Lemma fetched_job_token_witness :
  exists p,
    jobParameters github_world sample_context = Ok (Some p)
    /\ jobToken p = "env-job-token".
Proof.
  eexists. split; [reflexivity|].
  destruct (fetched_job_token github_world sample_context _ sample_params
              eq_refl eq_refl) as (_ & _ & E & _).
  apply (E "env-job-token" eq_refl). discriminate.
Defined.

(** The parameter stage when a token is missing. *)
Lemma run_parameters_missing_token w robot context params :
  getJobParameters w context = Some params ->
  effective_jobToken w params = ""
  \/ effective_credentialsToken w params = "" ->
  let o := run_parameters w robot context None in
  ~ In call_getJobDetails (events o)
  /\ In (core_setFailed
           (if String.eqb (effective_jobToken w params) ""
            then "Github Dependabot job token is not set"
            else "Github Dependabot credentials token is not set"))
        (events o).
Proof.
  unfold effective_jobToken, effective_credentialsToken.
  intros G. flow. rewrite G. flow.
  destruct (String.eqb (or_else (env w "GITHUB_DEPENDABOT_JOB_TOKEN")
                          (params_jobToken params)) "") eqn:J.
  - intros _. cases; (split; [absent | simpl; auto 8]).
  - intros [E|E]; [rewrite E in J; discriminate J|].
    rewrite E. cbn [String.eqb]. cases; (split; [absent | simpl; auto 8]).
Qed.

(** X2.  When the job token or the credentials token is empty (in the
    environment and in the job parameters), nothing is fetched from the
    job-control service and no secret is registered; the run is marked
    failed with the message that names the missing token, the job token
    first; and [getDependabotJobParameters] gives [null]. *)
Theorem missing_token_stops_fetch (w : World) (context : Context)
    (params : JobParameters) :
  getJobParameters w context = Some params ->
  effective_jobToken w params = ""
  \/ effective_credentialsToken w params = "" ->
  jobParameters w context = Ok None
  /\ ~ In call_getJobDetails (trace w context)
  /\ ~ In call_getCredentials (trace w context)
  /\ (forall s, ~ In (core_setSecret s) (trace w context))
  /\ In (core_setFailed
           (if String.eqb (effective_jobToken w params) ""
            then "Github Dependabot job token is not set"
            else "Github Dependabot credentials token is not set"))
        (trace w context).
Proof.
  intros G T.
  destruct (run_parameters_missing_token w Canonical.robot context params G T)
    as [N F].
  destruct (run_parameters_attempt w Canonical.robot context) as [_ A].
  destruct (A N) as (_ & S & C).
  destruct (stages_prefix _ _ _ _ _ (canonical_stages w context)) as [rest E].
  split.
  { revert T. unfold effective_jobToken, effective_credentialsToken.
    flow. rewrite G. flow.
    destruct (String.eqb (or_else (env w "GITHUB_DEPENDABOT_JOB_TOKEN")
                            (params_jobToken params)) "") eqn:J;
      [reflexivity|].
    intros [X|X]; [rewrite X in J; discriminate J|].
    rewrite X. reflexivity. }
  split; [intros X; apply N; revert X;
          apply canonical_preliminary_only; reflexivity|].
  split; [intros X; apply C; revert X;
          apply canonical_preliminary_only; reflexivity|].
  split; [intros s X; apply (S s); revert X;
          apply canonical_preliminary_only; reflexivity|].
  unfold trace. rewrite E. apply in_or_app. left. exact F.
Qed.

(** X2 at an execution without a credentials token. *)
Lemma missing_token_stops_fetch_witness :
  effective_credentialsToken no_token_world
    (mkJobParameters 17 "job-token" "" "https://api.example") = ""
  /\ ~ In call_getJobDetails (trace no_token_world sample_context)
  /\ In (core_setFailed "Github Dependabot credentials token is not set")
        (trace no_token_world sample_context).
Proof.
  split; [reflexivity|].
  destruct (missing_token_stops_fetch no_token_world sample_context _ eq_refl
              (or_intror eq_refl)) as (_ & N & _ & _ & F).
  split; [exact N | exact F].
Defined.

(** ** The two fetches *)

(** X3.  The job details are only fetched right after the two tokens were
    registered as secrets: a trace with the fetch is the greeting, the two
    [setSecret] calls on the tokens in use, the log line and the fetch, and
    whatever follows. *)
Theorem secrets_before_fetch (w : World) (context : Context) :
  In call_getJobDetails (trace w context) ->
  exists params post,
    getJobParameters w context = Some params
    /\ trace w context =
         (greeting Canonical.robot context
          ++ core_setSecret (effective_jobToken w params)
          :: core_setSecret (effective_credentialsToken w params)
          :: core_info "Fetching job details"
          :: call_getJobDetails :: post)%list.
Proof.
  intros X.
  apply canonical_preliminary_only in X; try reflexivity.
  destruct (run_parameters_attempt w Canonical.robot context) as [A _].
  destruct (A X) as (params & tail & G & _ & _ & E & _).
  destruct (stages_prefix _ _ _ _ _ (canonical_stages w context)) as [rest R].
  exists params, (tail ++ rest)%list. split; [exact G|].
  unfold trace. rewrite R, E. unfold greeting. simpl. reflexivity.
Qed.

(** X3 at the execution in which everything succeeds. *)
Lemma secrets_before_fetch_witness :
  exists post,
    trace happy_world sample_context =
      (greeting Canonical.robot sample_context
       ++ core_setSecret "job-token" :: core_setSecret "cred-token"
       :: core_info "Fetching job details" :: call_getJobDetails :: post)%list.
Proof.
  assert (X : In call_getJobDetails (trace happy_world sample_context))
    by find_in.
  destruct (secrets_before_fetch happy_world sample_context X)
    as (params & post & G & E).
  injection G as <-. exists post. exact E.
Defined.

(** The credentials are requested right after the job details arrived. *)
Lemma run_parameters_credentials w robot context :
  let o := run_parameters w robot context None in
  In call_getCredentials (events o) ->
  exists d pre post,
    getJobDetails w = Ok d
    /\ events o = (pre ++ call_getJobDetails :: call_getCredentials :: post)%list.
Proof.
  cases; cbn zeta; intros H;
    try (exfalso; simpl in H; intuition discriminate);
    eexists; eexists (_ :: _ :: _ :: _ :: _ :: _ :: [_]); eexists;
    (split; [reflexivity|]); reflexivity.
Qed.

(** X4.  The credentials are only requested when the request for the job
    details has returned, and right after it. *)
Theorem credentials_after_details (w : World) (context : Context) :
  In call_getCredentials (trace w context) ->
  exists d pre post,
    getJobDetails w = Ok d
    /\ trace w context =
         (pre ++ call_getJobDetails :: call_getCredentials :: post)%list.
Proof.
  intros X.
  apply canonical_preliminary_only in X; try reflexivity.
  apply run_parameters_credentials in X.
  destruct X as (d & pre & post & D & E).
  destruct (stages_prefix _ _ _ _ _ (canonical_stages w context)) as [rest R].
  exists d, pre, (post ++ rest)%list. split; [exact D|].
  unfold trace. rewrite R, E, <- app_assoc. reflexivity.
Qed.

(** X4 at the execution whose request for the credentials rejects. *)
Lemma credentials_after_details_witness :
  In call_getCredentials (trace odd_fetch_world sample_context)
  /\ exists d, getJobDetails odd_fetch_world = Ok d.
Proof.
  assert (X : In call_getCredentials (trace odd_fetch_world sample_context))
    by find_in.
  split; [exact X|].
  destruct (credentials_after_details odd_fetch_world sample_context X)
    as (d & _ & _ & D & _).
  exists d. exact D.
Defined.

(** The parameter stage after a fetch that threw something else than an
    [Error]: the value is thrown on, and the run is not marked failed. *)
Lemma run_parameters_rethrow w robot context v :
  let o := run_parameters w robot context None in
  (In call_getJobDetails (events o)
   /\ getJobDetails w = Throw (ThrownOther v))
  \/ (In call_getCredentials (events o)
      /\ getCredentials w = Throw (ThrownOther v)) ->
  result o = Throw (ThrownOther v) /\ not_failed (events o).
Proof.
  cases; cbn zeta; intros [[H E]|[H E]];
    try discriminate E;
    try (exfalso; simpl in H; intuition discriminate);
    inversion E; subst; (split; [reflexivity | intros m; absent]).
Qed.

(** X5.  When a fetch from the job-control service throws a value that is
    not an [Error], [run] ends with that very value: the run is not marked
    failed, nothing is reported, and neither the image pull nor any later
    stage is reached. *)
Theorem odd_fetch_rethrown (w : World) (context : Context) (v : string) :
  (In call_getJobDetails (trace w context)
   /\ getJobDetails w = Throw (ThrownOther v))
  \/ (In call_getCredentials (trace w context)
      /\ getCredentials w = Throw (ThrownOther v)) ->
  outcome w context = Throw (ThrownOther v)
  /\ not_failed (trace w context)
  /\ unreported (trace w context)
  /\ ~ In (call_pull (PROXY_IMAGE_NAME w)) (trace w context)
  /\ no_proxy (trace w context)
  /\ exported (trace w context) = [].
Proof.
  intros F.
  assert (F1 :
    (In call_getJobDetails (events (run_parameters w Canonical.robot context None))
     /\ getJobDetails w = Throw (ThrownOther v))
    \/ (In call_getCredentials (events (run_parameters w Canonical.robot context None))
        /\ getCredentials w = Throw (ThrownOther v))).
  { destruct F as [[X E]|[X E]]; [left|right]; (split; [|exact E]);
      revert X; apply canonical_preliminary_only; reflexivity. }
  clear F. apply run_parameters_rethrow in F1. cbv zeta in F1.
  destruct F1 as [R N].
  pose proof (canonical_stages w context) as S.
  canonical_by_stages S; rewrite E1 in R, N; cbn [events result] in R, N;
    try discriminate R.
  injection R as ->.
  repeat split; auto.
  - intros ty d. absent.
  - absent.
  - apply no_proxy_preliminary. assumption.
  - apply (exported_outside is_preliminary); auto.
Qed.

(** X5 at the execution whose request for the credentials rejects with a
    string. *)
Lemma odd_fetch_rethrown_witness :
  outcome odd_fetch_world sample_context = Throw (ThrownOther "socket hang up")
  /\ not_failed (trace odd_fetch_world sample_context).
Proof.
  destruct (odd_fetch_rethrown odd_fetch_world sample_context "socket hang up")
    as (O & N & _).
  - right. split; [find_in | reflexivity].
  - split; [exact O | exact N].
Defined.

(** ** Parameters from the environment *)

(** Without fetched job parameters the parameter stage has the value of
    [getCredentialsFromEnv], or throws what [JSON.parse] threw. *)
Lemma run_parameters_from_env w robot context :
  result (start (getDependabotJobParameters w robot context)) = Ok None ->
  match JSON_parse w (credentialsText w) with
  | Ok c =>
      result (run_parameters w robot context None)
      = Ok {| jobToken := ""; dependabotApiUrl := ""; cachedMode := true;
              credentials := c; apiClient := None |}
  | Throw t => result (run_parameters w robot context None) = Throw t
  end.
Proof.
  unfold credentialsText.
  cases; intros H; try discriminate H; reflexivity.
Qed.

(** X6.  When the job parameters are unavailable and the text of
    [DEPENDABOT_CREDENTIALS] does not parse, [run] ends with what
    [JSON.parse] threw, before the image pull: nothing is pulled, built,
    written or exported. *)
Theorem unparsable_credentials_end_run (w : World) (context : Context)
    (thrown : Thrown) :
  jobParameters w context = Ok None ->
  JSON_parse w (credentialsText w) = Throw thrown ->
  outcome w context = Throw thrown
  /\ ~ In (call_pull (PROXY_IMAGE_NAME w)) (trace w context)
  /\ no_proxy (trace w context)
  /\ files_written (trace w context) = []
  /\ exported (trace w context) = [].
Proof.
  intros J P.
  pose proof (run_parameters_from_env w Canonical.robot context J) as R.
  rewrite P in R.
  pose proof (canonical_stages w context) as S.
  canonical_by_stages S; rewrite E1 in R; cbn [result] in R;
    try discriminate R.
  injection R as ->.
  repeat split; auto.
  - absent.
  - apply no_proxy_preliminary. assumption.
  - apply (files_written_outside is_preliminary); auto.
  - apply (exported_outside is_preliminary); auto.
Qed.

(** X6 at an execution outside Dependabot with an unparsable variable. *)
Lemma unparsable_credentials_end_run_witness :
  outcome bad_json_world sample_context = Throw syntax_error
  /\ ~ In (call_pull "proxy:latest") (trace bad_json_world sample_context).
Proof.
  destruct (unparsable_credentials_end_run bad_json_world sample_context
              syntax_error eq_refl eq_refl) as (O & N & _).
  split; [exact O | exact N].
Defined.

(** The call of the proxy builder carries the [jobId] the parameter stage
    left and the token, URL and credentials it handed on. *)
Lemma builder_call w context j token apiUrl creds :
  In (call_ProxyBuilder_run j token apiUrl creds) (trace w context) ->
  exists es1 q,
    run_parameters w Canonical.robot context None = mkOut es1 j (Ok q)
    /\ token = jobToken q /\ apiUrl = dependabotApiUrl q
    /\ creds = credentials q.
Proof.
  pose proof (canonical_stages w context) as S.
  canonical_by_stages S; intros X;
    try (apply run_pull_inv in E2; destruct E2 as (-> & _));
    try (apply run_proxy_inv in E3; destruct E3 as (_ & tail & -> & T & _));
    split_in X;
    try (exfalso; revert X; absent);
    injection X as <- <- <- <-; eauto 6.
Qed.

(** X7.  The proxy builder is called with the credentials the service
    returned, the job token in use and the API URL of the job when the job
    parameters were fetched; otherwise with the credentials parsed from
    [DEPENDABOT_CREDENTIALS], an empty token and an empty URL. *)
Theorem builder_arguments (w : World) (context : Context)
    (j : option Z) (token apiUrl : string) (creds : list Credential) :
  In (call_ProxyBuilder_run j token apiUrl creds) (trace w context) ->
  match jobParameters w context with
  | Ok (Some p) =>
      getCredentials w = Ok creds
      /\ token = jobToken p /\ apiUrl = dependabotApiUrl p
  | Ok None =>
      JSON_parse w (credentialsText w) = Ok creds
      /\ token = "" /\ apiUrl = ""
  | Throw _ => False
  end.
Proof.
  intros X. apply builder_call in X.
  destruct X as (es1 & q & E & -> & -> & ->).
  pose proof (run_parameters_inv w context es1 j q E) as I.
  pose proof (run_parameters_from_env w Canonical.robot context) as V.
  fold (jobParameters w context) in V.
  destruct (jobParameters w context) as [[p|]|t]; [| |contradiction].
  - destruct I as (-> & _ & _ & C & _). auto.
  - destruct I as (_ & _ & C). specialize (V eq_refl).
    rewrite C, E in V. cbn [result] in V. injection V as ->. auto.
Qed.

(** X7 at the execution in which everything succeeds. *)
Lemma builder_arguments_witness :
  getCredentials happy_world = Ok [npm_credential]
  /\ In (call_ProxyBuilder_run (Some 17%Z) "job-token" "https://api.example"
           [npm_credential])
        (trace happy_world sample_context).
Proof.
  assert (X : In (call_ProxyBuilder_run (Some 17%Z) "job-token"
                    "https://api.example" [npm_credential])
                (trace happy_world sample_context)) by find_in.
  split; [|exact X].
  exact (proj1 (builder_arguments happy_world sample_context _ _ _ _ X)).
Defined.

(** X8.  The job identifier the proxy builder is called with is the one of
    the job parameters as soon as the fetch of the job details was
    attempted, even when the fetch failed and the parameters came from the
    environment; it is undefined when no fetch was attempted. *)
Theorem builder_job_id (w : World) (context : Context)
    (j : option Z) (token apiUrl : string) (creds : list Credential) :
  In (call_ProxyBuilder_run j token apiUrl creds) (trace w context) ->
  (In call_getJobDetails (trace w context) ->
   exists params,
     getJobParameters w context = Some params
     /\ j = Some (params_jobId params))
  /\ (~ In call_getJobDetails (trace w context) -> j = None).
Proof.
  intros X. apply builder_call in X.
  destruct X as (es1 & q & E & _).
  destruct (run_parameters_attempt w Canonical.robot context) as [A B].
  rewrite E in A, B. cbn [events jobId_after] in A, B.
  destruct (stages_prefix _ _ _ _ _ (canonical_stages w context)) as [rest R].
  rewrite E in R. cbn [events] in R.
  split.
  - intros F.
    assert (F1 : In call_getJobDetails es1).
    { pose proof (canonical_preliminary_only w context call_getJobDetails
                    eq_refl eq_refl eq_refl F) as Y.
      rewrite E in Y. exact Y. }
    destruct (A F1) as (params & tail & G & _ & _ & _ & J).
    exists params. auto.
  - intros N. apply B. intros Y. apply N. unfold trace. rewrite R.
    apply in_or_app. left. exact Y.
Qed.

(** X8 at the execution whose request for the job details is answered 401:
    the proxy builder still gets the identifier of that job. *)
Lemma builder_job_id_witness :
  In (call_ProxyBuilder_run (Some 17%Z) "" "" [])
     (trace unauthorized_world sample_context)
  /\ exists params,
       getJobParameters unauthorized_world sample_context = Some params
       /\ Some 17%Z = Some (params_jobId params).
Proof.
  assert (X : In (call_ProxyBuilder_run (Some 17%Z) "" "" [])
                (trace unauthorized_world sample_context)) by find_in.
  split; [exact X|].
  apply (proj1 (builder_job_id unauthorized_world sample_context _ _ _ _ X)).
  find_in.
Defined.

(** ** Calls made at most once *)

Lemma occurrences_app (f : Event -> bool) (a b : list Event) :
  occurrences f (a ++ b) = occurrences f a + occurrences f b.
Proof.
  unfold occurrences. induction a as [|e a IH]; [reflexivity|].
  simpl. destruct (f e); simpl; rewrite IH; reflexivity.
Qed.

Lemma occurrences_outside (cls f : Event -> bool) (es : list Event) :
  (forall e, cls e = true -> f e = false) ->
  forallb cls es = true -> occurrences f es = 0.
Proof.
  intros Hcls. unfold occurrences.
  induction es as [|e es IH]; [reflexivity|].
  simpl. intros H. apply andb_prop in H. destruct H as [He Hes].
  rewrite (Hcls e He). auto.
Qed.

(** The parameter stage makes each fetch at most once, the second only
    after the first. *)
Lemma run_parameters_fetches_once w robot context j :
  occurrences is_getJobDetails (events (run_parameters w robot context j)) <= 1
  /\ occurrences is_getCredentials (events (run_parameters w robot context j))
     <= occurrences is_getJobDetails (events (run_parameters w robot context j)).
Proof. cases; cbv; auto. Qed.

(** The pull stage pulls once, reports at most once, and marks at most as
    often as it reports. *)
Lemma run_pull_once w robot p j :
  occurrences is_pull (events (run_pull w robot p j)) = 1
  /\ occurrences is_reportJobError (events (run_pull w robot p j)) <= 1
  /\ occurrences is_markJobAsProcessed (events (run_pull w robot p j))
     <= occurrences is_reportJobError (events (run_pull w robot p j)).
Proof. cases; cbv; auto. Qed.

(** X9.  In one execution the job details are requested at most once and
    the credentials no more often; the image is pulled at most once, a
    failure is reported no more often than the image is pulled, and the job
    is marked processed no more often than a failure is reported. *)
Theorem service_calls_at_most_once (w : World) (context : Context) :
  occurrences is_getJobDetails (trace w context) <= 1
  /\ occurrences is_getCredentials (trace w context)
     <= occurrences is_getJobDetails (trace w context)
  /\ occurrences is_pull (trace w context) <= 1
  /\ occurrences is_reportJobError (trace w context)
     <= occurrences is_pull (trace w context)
  /\ occurrences is_markJobAsProcessed (trace w context)
     <= occurrences is_reportJobError (trace w context).
Proof.
  pose proof (canonical_stages w context) as S.
  canonical_by_stages S;
    pose proof (run_parameters_fetches_once w Canonical.robot context None)
      as (D & C);
    rewrite E1 in D, C; cbn [events] in D, C;
    try (pose proof (run_pull_once w Canonical.robot q j1) as (P & R & M);
         rewrite E2 in P, R, M; cbn [events] in P, R, M);
    rewrite ?occurrences_app;
    repeat match goal with
      | K : forallb ?cls ?es = true |- _ =>
          progress
            (rewrite ?(occurrences_outside cls is_getJobDetails es),
               ?(occurrences_outside cls is_getCredentials es),
               ?(occurrences_outside cls is_pull es),
               ?(occurrences_outside cls is_reportJobError es),
               ?(occurrences_outside cls is_markJobAsProcessed es)
              by (assumption || (intros e; destruct e; simpl; congruence)))
      end;
    lia.
Qed.

(** ** What is reported *)

(** X10.  A failure is only ever reported to the job-control service with
    the error type [actions_workflow_image], for an [Error] thrown by the
    image pull, with that error's message as the detail, and for a job whose
    parameters were fetched. *)
Theorem reports_are_image_failures (w : World) (context : Context)
    (errorType detail : string) :
  In (call_reportJobError errorType detail) (trace w context) ->
  errorType = "actions_workflow_image"
  /\ (exists e,
        pull w (PROXY_IMAGE_NAME w) = Throw (ThrownError e)
        /\ detail = message e)
  /\ exists p, jobParameters w context = Ok (Some p).
Proof.
  pose proof (canonical_stages w context) as S.
  canonical_by_stages S; intros X;
    try (pose proof (run_parameters_inv w context _ _ _ E1) as I;
         apply run_pull_inv in E2; destruct E2 as (_ & tail2 & -> & H));
    split_in X; try (exfalso; revert X; absent).
  - destruct H as (e & He & Hc & [[_ ->]|[_ ->]]);
      split_in X; try discriminate X;
      injection X as <- <-;
      (split; [reflexivity|]); (split; [eauto|]);
      (destruct (jobParameters w context) as [[p|]|];
       [eauto | destruct I as (_ & N & _); contradiction | contradiction]).
  - destruct H as (e & msg & He & ->).
    destruct (apiClient q) eqn:C; cbn [app] in X;
      split_in X; try discriminate X.
    injection X as <- <-.
    (split; [reflexivity|]); (split; [eauto|]).
    destruct (jobParameters w context) as [[p|]|];
      [eauto | destruct I as (_ & N & _); congruence | contradiction].
  - destruct H as [-> _]. destruct X.
  - destruct H as [-> _]. destruct X.
Qed.

(** X10 at the execution whose image pull fails. *)
Lemma reports_are_image_failures_witness :
  In (call_reportJobError "actions_workflow_image" "registry unreachable")
     (trace image_failure_world sample_context)
  /\ exists e,
       pull image_failure_world "proxy:latest" = Throw (ThrownError e)
       /\ "registry unreachable" = message e.
Proof.
  assert (X : In (call_reportJobError "actions_workflow_image"
                    "registry unreachable")
                (trace image_failure_world sample_context)) by find_in.
  split; [exact X|].
  exact (proj1 (proj2 (reports_are_image_failures image_failure_world
                         sample_context _ _ X))).
Defined.

(** ** Cached mode and the experiment's value *)

(** X11.  For a job whose parameters were fetched, the proxy builder is
    constructed in cached mode exactly when the experiments of the job
    details are present and have the key [proxy-cached], whatever its value:
    [false] enables cached mode as well. *)
Theorem cached_mode_by_key (w : World) (context : Context)
    (p : DependabotJobParameters) (d : JobDetails)
    (image : string) (cached : bool) :
  jobParameters w context = Ok (Some p) ->
  getJobDetails w = Ok d ->
  In (new_ProxyBuilder image cached) (trace w context) ->
  (cached = true <->
   exists obj value,
     experiments d = Some obj /\ In ("proxy-cached", value) obj).
Proof.
  intros J D.
  pose proof (canonical_stages w context) as S.
  canonical_by_stages S; intros X;
    try (apply run_proxy_inv in E3; destruct E3 as (_ & tail & -> & T & _));
    split_in X;
    try (exfalso; revert X; absent);
    injection X as _ <-;
    apply run_parameters_inv in E1; rewrite J in E1;
    destruct E1 as (_ & _ & (d' & D' & ->) & _);
    rewrite D in D'; injection D' as <-;
    unfold proxy_cached, hasOwnProperty;
    (destruct (experiments d) as [obj|];
     [ rewrite existsb_exists; split;
       [ intros ((k & value) & I & Hk); cbn [fst] in Hk;
         apply String.eqb_eq in Hk; subst k; eauto
       | intros (obj' & value & O & I); injection O as <-;
         exists ("proxy-cached", value); split;
         [exact I | apply String.eqb_refl] ]
     | split; [discriminate | intros (obj & value & O & _); discriminate] ]).
Qed.

(** X11 at the execution whose job details carry the experiment with the
    value [false]. *)
Lemma cached_mode_by_key_witness :
  In (new_ProxyBuilder "proxy:latest" true) (trace flag_off_world sample_context)
  /\ exists obj,
       getJobDetails flag_off_world = Ok (mkJobDetails (Some obj))
       /\ In ("proxy-cached", false) obj.
Proof.
  assert (X : In (new_ProxyBuilder "proxy:latest" true)
                (trace flag_off_world sample_context)) by find_in.
  split; [exact X|].
  pose proof (cached_mode_by_key flag_off_world sample_context _ _ _ _
                eq_refl eq_refl X) as H.
  destruct (proj1 H eq_refl) as (obj & value & O & I).
  injection O as <-.
  eexists. split; [reflexivity|]. right. left. reflexivity.
Defined.

(** ** The proxy stage *)

(** The state of the proxy stage is only saved for a started container. *)
Lemma run_proxy_saved w robot p j key value :
  In (core_saveState key value) (events (run_proxy w robot p j)) ->
  key = "PROXY_CONTAINER_ID"
  /\ exists proxy pre post,
       ProxyBuilder_run w (PROXY_IMAGE_NAME w) (cachedMode p) j (jobToken p)
         (dependabotApiUrl p) (credentials p) = Ok proxy
       /\ container_start proxy = Ok tt
       /\ value = container_id proxy
       /\ events (run_proxy w robot p j) =
            (pre ++ call_container_start value
                 :: core_saveState key value :: post)%list.
Proof.
  cases; intros H; split_in H; try discriminate H;
    injection H as <- <-; (split; [reflexivity|]);
    eexists; eexists (_ :: _ :: _ :: _ :: _ :: [_]); eexists;
    repeat split; try eassumption;
    match goal with u : unit |- _ => destruct u end; assumption.
Qed.



(** ** Outputs, all or none *)

(** The canonical output stage exports nothing unless it returns. *)
Lemma canonical_outputs_all_or_none w proxy proxyUrl j :
  exported (events (Canonical.run_outputs w proxy proxyUrl j)) = []
  \/ result (Canonical.run_outputs w proxy proxyUrl j) = Ok tt.
Proof.
  cases; first [left; reflexivity | right; reflexivity].
Qed.

(** X13.  The canonical [run] exports all or nothing: as soon as one
    variable is exported, [run] returns, the eight variables are exported,
    in the order of the source, and the three files were written. *)
Theorem exports_all_or_none (w : World) (context : Context) :
  exported (trace w context) <> [] ->
  outcome w context = Ok tt
  /\ exported_names (trace w context) =
       ["MAVEN_OPTS"; "GRADLE_OPTS"; "SEMMLE_JAVA_EXTRACTOR_JVM_ARGS";
        "CODEQL_JAVA_EXTRACTOR_TRUST_STORE_PATH"; "PROXY_NETWORK_NAME";
        "PROXY_HOST"; "PROXY_PORT"; "PROXY_CA_CERT"]
  /\ map fst (files_written (trace w context)) =
       [resolve w "keystore.p12"; resolve w "cert.pem";
        path_join w (path_join w (homedir w) ".m2") "settings.xml"].
Proof.
  pose proof (canonical_stages w context) as S.
  unfold exported_names.
  canonical_by_stages S;
    rewrite ?exported_app, ?files_written_app;
    rewrite (exported_outside is_preliminary es1),
      (files_written_outside is_preliminary es1) by auto;
    try rewrite (exported_outside is_pull_event es2),
      (files_written_outside is_pull_event es2) by auto;
    try rewrite (exported_outside is_proxy_stage_event es3),
      (files_written_outside is_proxy_stage_event es3) by auto;
    cbn [app]; intros N; try (exfalso; apply N; reflexivity).
  pose proof (canonical_outputs_all_or_none w proxy proxyUrl j3) as A.
  rewrite E4 in A. cbn [events result] in A.
  destruct A as [A| ->]; [contradiction|].
  apply run_outputs_inv in E4.
  destruct E4 as (certificate & p12 & _ & _ & ->).
  repeat split.
Qed.

(** X13 at the execution in which everything succeeds. *)
Lemma exports_all_or_none_witness :
  exported (trace happy_world sample_context) <> []
  /\ outcome happy_world sample_context = Ok tt.
Proof.
  assert (N : exported (trace happy_world sample_context) <> [])
    by (vm_compute; discriminate).
  split; [exact N|].
  exact (proj1 (exports_all_or_none happy_world sample_context N)).
Defined.

(** ** An image failure outside Dependabot *)

(** X14.  When the job parameters are unavailable, an [Error] thrown by the
    image pull is a local failure only: [run] marks the run failed and
    returns, without any call to the job-control service, without a proxy
    and without outputs. *)
Theorem local_image_failure (w : World) (context : Context)
    (c : list Credential) (e : Error) :
  jobParameters w context = Ok None ->
  JSON_parse w (credentialsText w) = Ok c ->
  pull w (PROXY_IMAGE_NAME w) = Throw (ThrownError e) ->
  outcome w context = Ok tt
  /\ (exists msg, In (core_setFailed msg) (trace w context))
  /\ unreported (trace w context)
  /\ ~ In call_markJobAsProcessed (trace w context)
  /\ no_proxy (trace w context)
  /\ exported (trace w context) = [].
Proof.
  intros J P Hpull.
  pose proof (run_parameters_from_env w Canonical.robot context J) as R.
  rewrite P in R.
  pose proof (canonical_stages w context) as S.
  canonical_by_stages S; rewrite E1 in R; cbn [result] in R;
    try discriminate R; injection R as ->;
    pose proof (fun C => run_pull_without_client w _ _ _ _ _ _ C E2) as W;
    destruct (W eq_refl) as (U & M & b & Hb); try discriminate Hb;
    pose proof E2 as I; apply run_pull_inv in I;
    destruct I as (_ & tail & Es2 & H).
  - destruct H as (e' & msg & _ & T). cbn [apiClient app] in T.
    repeat split.
    + exists msg. rewrite Es2, T. apply in_or_app. right. simpl. auto.
    + intros ty d. absent.
    + absent.
    + apply no_proxy_app; [apply no_proxy_preliminary | apply no_proxy_pull];
        assumption.
    + rewrite exported_app, (exported_outside is_preliminary es1),
        (exported_outside is_pull_event es2); auto.
  - exfalso. destruct H as [_ H]. exact (H e Hpull).
  - exfalso. destruct H as [_ H]. exact (H e Hpull).
Qed.

(** X14 at an execution outside Dependabot whose image pull fails. *)
Lemma local_image_failure_witness :
  outcome local_image_failure_world sample_context = Ok tt
  /\ unreported (trace local_image_failure_world sample_context).
Proof.
  destruct (local_image_failure local_image_failure_world sample_context []
              registry_unreachable eq_refl eq_refl eq_refl)
    as (O & _ & U & _).
  split; [exact O | exact U].
Defined.

(** ** The image that is pulled and built *)

(** X15.  A proxy builder is only constructed for the image of
    [PROXY_IMAGE_NAME], and only right after the call of [ImageService.pull]
    for that image has returned or has thrown a value that is not an
    [Error]; never after an [Error] from the pull. *)
Theorem builder_after_pull (w : World) (context : Context)
    (image : string) (cached : bool) :
  In (new_ProxyBuilder image cached) (trace w context) ->
  image = PROXY_IMAGE_NAME w
  /\ (pull w image = Ok tt \/ exists v, pull w image = Throw (ThrownOther v))
  /\ exists pre post,
       trace w context =
         (pre ++ call_pull image :: core_endGroup
              :: core_info (Canonical.robot ++ " ~ initialize proxy builder ~")
              :: new_ProxyBuilder image cached :: post)%list.
Proof.
  pose proof (canonical_stages w context) as S.
  canonical_by_stages S; intros X;
    try (apply run_proxy_inv in E3; destruct E3 as (_ & tail & -> & T & _));
    split_in X;
    try (exfalso; revert X; absent);
    injection X as <- <-;
    apply run_pull_inv in E2; destruct E2 as (_ & tail2 & -> & -> & H);
    (split; [reflexivity|]);
    (split;
     [ destruct (pull w (PROXY_IMAGE_NAME w)) as [[]|[e|v]];
       [left; reflexivity | exfalso; exact (H e eq_refl) | right; eauto ] |]);
    exists (es1 ++ [core_startGroup "Pulling updater images"; core_endGroup])%list;
    eexists; rewrite <- app_assoc; reflexivity.
Qed.

(** X15 at the execution whose image pull throws a string. *)
Lemma builder_after_pull_witness :
  In (new_ProxyBuilder "proxy:latest" false)
     (trace odd_throw_world sample_context)
  /\ (pull odd_throw_world "proxy:latest" = Ok tt
      \/ exists v, pull odd_throw_world "proxy:latest" = Throw (ThrownOther v)).
Proof.
  assert (X : In (new_ProxyBuilder "proxy:latest" false)
                (trace odd_throw_world sample_context)) by find_in.
  split; [exact X|].
  exact (proj1 (proj2 (builder_after_pull odd_throw_world sample_context
                         _ _ X))).
Defined.

(** ** The minimal variant's outputs *)



(** ** The local diagnostic *)

(** X18.  The URL of a job's log, for a job identifier that is a safe
    integer other than zero, is made of the server URL and the repository,
    each followed by a slash and each left out (with its slash) when its
    variable is unset or empty, then [network/updates/] and the identifier
    in decimal. *)
Theorem job_url_parts (w : World) (id : Z) :
  id <> 0%Z ->
  isSafeInteger id = true ->
  dependabotJobUrl w (JsNumber id) =
    url_part (env w "GITHUB_SERVER_URL")
    ++ url_part (env w "GITHUB_REPOSITORY")
    ++ "network/updates/" ++ decimal id.
Proof.
  intros N Safe. apply Z.eqb_neq in N.
  unfold dependabotJobUrl, url_part, of_env.
  destruct (env w "GITHUB_SERVER_URL") as [s|],
    (env w "GITHUB_REPOSITORY") as [r|];
    cbn [filter truthy]; rewrite N;
    change (String.eqb "network/updates" "") with false;
    repeat match goal with
      | |- context [String.eqb ?x ""] => destruct (String.eqb x "")
      end;
    cbn [negb join join_item]; unfold Number_toString; rewrite Safe;
    rewrite ?append_assoc; reflexivity.
Qed.

(** X18 at a world with both variables set. *)
Lemma job_url_parts_witness :
  dependabotJobUrl github_world (JsNumber 17)
  = "https://github.com/octo/repo/network/updates/17".
Proof.
  rewrite (job_url_parts github_world 17); [reflexivity | discriminate |
                                            reflexivity].
Defined.

(** The failed mark of the parameter stage after a fetch that threw an
    [Error]. *)
Lemma run_parameters_diagnostic w robot context params e :
  getJobParameters w context = Some params ->
  let o := run_parameters w robot context None in
  (In call_getJobDetails (events o)
   /\ getJobDetails w = Throw (ThrownError e))
  \/ (In call_getCredentials (events o)
      /\ getCredentials w = Throw (ThrownError e)) ->
  In (core_setFailed
        (if Z.eqb (params_jobId params) 0
         then "Dependabot encountered an unexpected problem"
         else diagnostic w "Dependabot encountered an unexpected problem" e
                (params_jobId params)))
     (events o).
Proof.
  intros G. unfold diagnostic. flow. rewrite G.
  cases; intros [[H E]|[H E]];
    try discriminate E;
    try (exfalso; simpl in H; intuition discriminate);
    inversion E; subst;
    unfold jobId_truthy, jobId_value in *;
    destruct (Z.eqb (params_jobId params) 0);
    try discriminate;
    repeat (first [left; reflexivity | right]).
Qed.

(** X19.  When a fetch from the job-control service throws an [Error], the
    run is marked failed with the message
    [Dependabot encountered an unexpected problem], followed, two line feeds
    apart, by the error and by the pointer to the job's log; for the job
    identifier 0 the message stands alone, without the error. *)
Theorem fetch_failure_diagnostic (w : World) (context : Context)
    (params : JobParameters) (e : Error) :
  getJobParameters w context = Some params ->
  fetch_threw w context e ->
  In (core_setFailed
        (if Z.eqb (params_jobId params) 0
         then "Dependabot encountered an unexpected problem"
         else diagnostic w "Dependabot encountered an unexpected problem" e
                (params_jobId params)))
     (trace w context).
Proof.
  intros G F.
  assert (F1 :
    (In call_getJobDetails (events (run_parameters w Canonical.robot context None))
     /\ getJobDetails w = Throw (ThrownError e))
    \/ (In call_getCredentials (events (run_parameters w Canonical.robot context None))
        /\ getCredentials w = Throw (ThrownError e))).
  { destruct F as [[X E]|[X E]]; [left|right]; (split; [|exact E]);
      revert X; apply canonical_preliminary_only; reflexivity. }
  apply (run_parameters_diagnostic w Canonical.robot context params e G) in F1.
  destruct (stages_prefix _ _ _ _ _ (canonical_stages w context)) as [rest R].
  unfold trace. rewrite R. apply in_or_app. left. exact F1.
Qed.

(** X19 at the job with the identifier 0. *)
Lemma fetch_failure_diagnostic_witness :
  fetch_threw job_zero_world sample_context unauthorized
  /\ In (core_setFailed "Dependabot encountered an unexpected problem")
        (trace job_zero_world sample_context).
Proof.
  assert (F : fetch_threw job_zero_world sample_context unauthorized).
  { left. split; [find_in | reflexivity]. }
  split; [exact F|].
  exact (fetch_failure_diagnostic job_zero_world sample_context _ unauthorized
           eq_refl F).
Defined.

(** The failed mark of the pull stage, for a job identifier that is set. *)
Lemma run_pull_diagnostic w robot p id e es j' :
  pull w (PROXY_IMAGE_NAME w) = Throw (ThrownError e) ->
  run_pull w robot p (Some id) = mkOut es j' (Ok false) ->
  In (core_setFailed
        (if Z.eqb id 0
         then "Error fetching updater images" ++ message e
         else diagnostic w ("Error fetching updater images" ++ message e) e id))
     es.
Proof.
  intros P. unfold diagnostic. flow. rewrite P.
  cases; intros H; inversion H; subst; clear H;
    unfold jobId_truthy, jobId_value in *;
    destruct (Z.eqb id 0); try discriminate;
    repeat (first [left; reflexivity | right]).
Qed.

(** Fetched job parameters leave the identifier of the job in [jobId]. *)
Lemma run_parameters_job_id w robot context p params :
  result (start (getDependabotJobParameters w robot context)) = Ok (Some p) ->
  getJobParameters w context = Some params ->
  jobId_after (run_parameters w robot context None)
  = Some (params_jobId params).
Proof.
  cases; intros H G; inversion H; inversion G; subst; reflexivity.
Qed.

(** X20.  When the image pull throws an [Error] for a job whose parameters
    were fetched and [run] returns, the run was marked failed with
    [Error fetching updater images] immediately followed by the error's
    message (nothing in between), then, two line feeds apart, the error and
    the pointer to the job's log; for the job identifier 0 only the first
    part is left. *)
Theorem image_failure_diagnostic (w : World) (context : Context)
    (p : DependabotJobParameters) (params : JobParameters) (e : Error) :
  jobParameters w context = Ok (Some p) ->
  getJobParameters w context = Some params ->
  pull w (PROXY_IMAGE_NAME w) = Throw (ThrownError e) ->
  outcome w context = Ok tt ->
  In (core_setFailed
        (if Z.eqb (params_jobId params) 0
         then "Error fetching updater images" ++ message e
         else diagnostic w ("Error fetching updater images" ++ message e) e
                (params_jobId params)))
     (trace w context).
Proof.
  intros J G P O.
  pose proof (run_parameters_job_id w Canonical.robot context p params J G)
    as I.
  pose proof (canonical_stages w context) as S.
  canonical_by_stages S; try discriminate O;
    rewrite E1 in I; cbn [jobId_after] in I; subst j1.
  - apply in_or_app. right.
    exact (run_pull_diagnostic w _ _ _ _ _ _ P E2).
  - exfalso. apply run_pull_inv in E2.
    destruct E2 as (_ & tail & _ & _ & H). exact (H e P).
Qed.

(** X20 at the execution whose image pull fails. *)
Lemma image_failure_diagnostic_witness :
  outcome image_failure_world sample_context = Ok tt
  /\ In (core_setFailed
           (diagnostic image_failure_world
              "Error fetching updater imagesregistry unreachable"
              registry_unreachable 17))
        (trace image_failure_world sample_context).
Proof.
  split; [reflexivity|].
  exact (image_failure_diagnostic image_failure_world sample_context _
           sample_params registry_unreachable eq_refl eq_refl eq_refl eq_refl).
Defined.

(** ** Failures of the parameter stage stay local *)

(** X21.  When a fetch from the job-control service throws an [Error],
    nothing is sent to that service in the whole execution, neither a
    [reportJobError] nor a [markJobAsProcessed], and the run is marked
    failed. *)
Theorem fetch_failure_unreported (w : World) (context : Context) (e : Error) :
  fetch_threw w context e ->
  unreported (trace w context)
  /\ ~ In call_markJobAsProcessed (trace w context)
  /\ exists msg, In (core_setFailed msg) (trace w context).
Proof.
  intros F.
  assert (F1 :
    (In call_getJobDetails (events (run_parameters w Canonical.robot context None))
     /\ getJobDetails w = Throw (ThrownError e))
    \/ (In call_getCredentials (events (run_parameters w Canonical.robot context None))
        /\ getCredentials w = Throw (ThrownError e))).
  { destruct F as [[X E]|[X E]]; [left|right]; (split; [|exact E]);
      revert X; apply canonical_preliminary_only; reflexivity. }
  clear F. apply run_parameters_fetch_threw in F1. cbv zeta in F1.
  destruct F1 as [[msg Hmsg] _].
  destruct (failed_parameters_unreported w context) as [U M]; [eauto|].
  split; [exact U|]. split; [exact M|].
  destruct (stages_prefix _ _ _ _ _ (canonical_stages w context)) as [rest R].
  exists msg. unfold trace. rewrite R. apply in_or_app. left. exact Hmsg.
Qed.

(** X21 at the execution whose request for the job details is answered
    401. *)
Lemma fetch_failure_unreported_witness :
  fetch_threw unauthorized_world sample_context unauthorized
  /\ unreported (trace unauthorized_world sample_context).
Proof.
  assert (F : fetch_threw unauthorized_world sample_context unauthorized).
  { left. split; [find_in | reflexivity]. }
  split; [exact F|].
  exact (proj1 (fetch_failure_unreported unauthorized_world sample_context
                  unauthorized F)).
Defined.

(** The parameter stage when both fetches return and the experiments have a
    property named [hasOwnProperty]. *)
Lemma run_parameters_shadowed w robot context params d obj :
  getJobParameters w context = Some params ->
  getJobDetails w = Ok d ->
  (exists c, getCredentials w = Ok c) ->
  experiments d = Some obj ->
  hasOwnProperty obj "hasOwnProperty" = true ->
  let o := run_parameters w robot context None in
  In call_getCredentials (events o) ->
  result (start (getDependabotJobParameters w robot context)) = Ok None
  /\ In (core_setFailed
           (if Z.eqb (params_jobId params) 0
            then "Dependabot encountered an unexpected problem"
            else diagnostic w "Dependabot encountered an unexpected problem"
                   (not_a_function w) (params_jobId params)))
        (events o).
Proof.
  intros G D [c C] X Sh. unfold diagnostic. flow.
  rewrite G, D, C. flow. rewrite X. flow. rewrite Sh.
  cases; intros H;
    try (exfalso; simpl in H; intuition discriminate);
    (split; [reflexivity|]);
    unfold jobId_truthy, jobId_value in *;
    destruct (Z.eqb (params_jobId params) 0);
    try discriminate;
    repeat (first [left; reflexivity | right]).
Qed.

(** X22.  When both fetches return but the experiments of the job details
    have a property named [hasOwnProperty], the call of that name inside the
    [try] throws: [getDependabotJobParameters] gives [null] although the
    parameters were fetched, the run is marked failed with the diagnostic of
    the engine's [TypeError], and nothing is sent to the job-control
    service. *)
Theorem shadowed_method_ends_fetch (w : World) (context : Context)
    (params : JobParameters) (d : JobDetails) (obj : list (string * bool)) :
  getJobParameters w context = Some params ->
  In call_getCredentials (trace w context) ->
  getJobDetails w = Ok d ->
  (exists c, getCredentials w = Ok c) ->
  experiments d = Some obj ->
  hasOwnProperty obj "hasOwnProperty" = true ->
  jobParameters w context = Ok None
  /\ In (core_setFailed
           (if Z.eqb (params_jobId params) 0
            then "Dependabot encountered an unexpected problem"
            else diagnostic w "Dependabot encountered an unexpected problem"
                   (not_a_function w) (params_jobId params)))
        (trace w context)
  /\ unreported (trace w context)
  /\ ~ In call_markJobAsProcessed (trace w context).
Proof.
  intros G H D C X Sh.
  apply canonical_preliminary_only in H; try reflexivity.
  destruct (run_parameters_shadowed w Canonical.robot context params d obj
              G D C X Sh H) as [J F].
  split; [exact J|].
  destruct (failed_parameters_unreported w context) as [U M]; [eauto|].
  destruct (stages_prefix _ _ _ _ _ (canonical_stages w context)) as [rest R].
  split; [|split; [exact U | exact M]].
  unfold trace. rewrite R. apply in_or_app. left. exact F.
Qed.

(** X22 at an execution whose experiments have such a property, and the
    flag [proxy-cached] as well. *)
Lemma shadowed_method_ends_fetch_witness :
  In call_getCredentials (trace shadowed_world sample_context)
  /\ jobParameters shadowed_world sample_context = Ok None
  /\ unreported (trace shadowed_world sample_context).
Proof.
  assert (H : In call_getCredentials (trace shadowed_world sample_context))
    by find_in.
  split; [exact H|].
  destruct (shadowed_method_ends_fetch shadowed_world sample_context
              sample_params _ _ eq_refl H eq_refl
              (ex_intro _ [npm_credential] eq_refl) eq_refl eq_refl)
    as (J & _ & U & _).
  split; [exact J | exact U].
Defined.
